(** * minion-zoo: the robot classifiers of [minion_zoo/minion.py]

    A shallow embedding of the five classes of [minion.py] ([minion],
    [ExpertMinion], [AllTheSingleLabelsMinion], [RandomMinion] and
    [NoisyMinion]) and the properties of their constructors and of their
    [classify] methods.

    Python objects are attribute dictionaries, methods are computations in a
    state-and-exception monad over the receiver's dictionary and the state of
    the process-wide generator of the [random] module.  The script of
    [minion_zoo/test.py] is embedded over the same monad, with the names and
    the labels of its configuration as parameters. *)

From stdpp Require Import gmap strings list fin_maps.
From Stdlib Require Import QArith.

Local Open Scope string_scope.
Local Open Scope Z_scope.

(** ** Values *)

(** Scalars: what a label, an id or a name can be.  A finite float is the
    rational it denotes, so that [<] on floats is [<] on [Q]. *)
Inductive scalar : Type :=
  | SNone
  | SBool (b : bool)
  | SInt (z : Z)
  | SFloat (q : Q)
  | SStr (s : string).

(** What an attribute can hold: a scalar, a list of labels, or a
    one-dimensional numpy array of floats. *)
Inductive value : Type :=
  | VScalar (x : scalar)
  | VList (l : list scalar)
  | VArray (a : list Q).

Coercion VScalar : scalar >-> value.

(** The exceptions that the module and the operations it uses can raise. *)
Inductive exn : Type :=
  | NotImplementedError
  | ValueError (msg : string)
  | AttributeError (attr : string)
  | IndexError
  | TypeError.

Inductive result (A : Type) : Type :=
  | Return (a : A)
  | Raise (e : exn).

Arguments Return {A} a.
Arguments Raise {A} e.

(** ** Comparisons *)

(** [x < y] on floats. *)
Definition Qltb (x y : Q) : bool := negb (Qle_bool y x).

(** The number a numeric scalar denotes: [bool] is a subclass of [int], with
    [False] being 0 and [True] being 1. *)
Definition numeric (x : scalar) : option Q :=
  match x with
  | SBool b => Some (inject_Z (if b then 1 else 0))
  | SInt z => Some (inject_Z z)
  | SFloat q => Some q
  | SNone | SStr _ => None
  end.

(** Python's [==] on scalars. *)
Definition py_eq (x y : scalar) : bool :=
  match numeric x, numeric y with
  | Some p, Some q => Qeq_bool p q
  | _, _ =>
      match x, y with
      | SNone, SNone => true
      | SStr s, SStr t => bool_decide (s = t)
      | _, _ => false
      end
  end.

(** [(a < 0).any()] and [(a > 1).any()] on an array. *)
Definition any_lt (a : list Q) (c : Q) : bool := existsb (fun x => Qltb x c) a.
Definition any_gt (a : list Q) (c : Q) : bool := existsb (fun x => Qltb c x) a.

(** [a[i]] on a sequence, for an integer index: a negative index counts from
    the end, an index out of range has no element. *)
Definition index {A : Type} (a : list A) (i : Z) : option A :=
  let n := Z.of_nat (length a) in
  if (0 <=? i) && (i <? n) then a !! Z.to_nat i
  else if (- n <=? i) && (i <? 0) then a !! Z.to_nat (n + i)
  else None.

(** ** The random generator *)

(** The hidden generator of the [random] module: [random.random()] returns a
    float of [[0,1)], [_randbelow(n)] an integer below [n]; both advance the
    generator. *)
Class Generator : Type := {
  gen_state : Type;
  gen_random : gen_state -> Q * gen_state;
  gen_randbelow : nat -> gen_state -> nat * gen_state;
  gen_random_range : forall s, (0 <= (gen_random s).1 < 1)%Q;
  gen_randbelow_range : forall n s, (0 < n)%nat -> ((gen_randbelow n s).1 < n)%nat
}.

(** A generator that reads its raw integers from a tape: [random()] keeps 53
    bits of the next one, [_randbelow(n)] reduces it below [n].  An empty
    tape yields zeros. *)
Definition tape_random (t : list Z) : Q * list Z :=
  match t with
  | [] => (0%Q, [])
  | r :: t' => (Qmake (r mod 2 ^ 53) (2 ^ 53), t')
  end.

Definition tape_randbelow (n : nat) (t : list Z) : nat * list Z :=
  match t with
  | [] => (0%nat, [])
  | r :: t' => (Z.to_nat (r mod Z.of_nat n), t')
  end.

(** ** The monad of methods *)

(** What a method call can read and change: the attributes of its receiver
    [self] and the state of the generator. *)
Record world `{G : Generator} : Type := World {
  self : gmap string value;
  rng : gen_state
}.

Definition M `{G : Generator} (A : Type) : Type := world -> result A * world.

Section Monad.
Context `{G : Generator}.

Definition ret {A : Type} (a : A) : M A := fun w => (Return a, w).

Definition bind {A B : Type} (m : M A) (k : A -> M B) : M B :=
  fun w =>
    match m w with
    | (Return a, w') => k a w'
    | (Raise e, w') => (Raise e, w')
    end.

Definition raise {A : Type} (e : exn) : M A := fun w => (Raise e, w).

(** [self.name] *)
Definition getattr (name : string) : M value :=
  fun w =>
    match self w !! name with
    | Some v => (Return v, w)
    | None => (Raise (AttributeError name), w)
    end.

(** [self.name = v] *)
Definition setattr (name : string) (v : value) : M unit :=
  fun w => (Return tt, World G (<[name := v]> (self w)) (rng w)).

(** [random.random()] *)
Definition random_random : M Q :=
  fun w =>
    let (u, s) := gen_random (rng w) in
    (Return u, World G (self w) s).

(** [random.choice(seq)]: [seq[_randbelow(len(seq))]], and [IndexError] on
    an empty sequence. *)
Definition choice {A : Type} (seq : list A) : M A :=
  fun w =>
    match seq with
    | [] => (Raise IndexError, w)
    | _ :: _ =>
        let (k, s) := gen_randbelow (length seq) (rng w) in
        match seq !! k with
        | Some x => (Return x, World G (self w) s)
        | None => (Raise IndexError, World G (self w) s)
        end
    end.

Definition random_choice (seq : value) : M value :=
  match seq with
  | VList l => bind (choice l) (fun x => ret (VScalar x))
  | VArray a => bind (choice a) (fun x => ret (VScalar (SFloat x)))
  | VScalar _ => raise TypeError
  end.

(** [a[i]] on an attribute value. *)
Definition getitem (a : value) (i : Z) : M Q :=
  match a with
  | VArray qs =>
      match index qs i with
      | Some q => ret q
      | None => raise IndexError
      end
  | _ => raise TypeError
  end.

(** A constructor call [C(args)]: a fresh object with no attribute, on
    which [C.__init__] runs. *)
Definition new (init : M unit) : M unit :=
  fun w => init (World G ∅ (rng w)).
End Monad.

Notation "x ← m ; k" := (bind m (fun x => k))
  (at level 20, m at level 100, k at level 200, only parsing).
Notation "m ;; k" := (bind m (fun _ => k))
  (at level 100, k at level 200, right associativity, only parsing).

(** ** The classes of [minion.py] *)

Section Minions.
Context `{G : Generator}.

(** [class minion] *)
Definition minion_init (id : Z) (name : string) : M unit :=
  setattr "id" (SInt id) ;;
  setattr "name" (SStr name).

Definition minion_classify (subject_id : Z) : M (Z * value) :=
  raise NotImplementedError.

(** [class ExpertMinion(minion)] *)
Definition ExpertMinion_init (id : Z) (name : string) : M unit :=
  minion_init id name.

Definition ExpertMinion_classify (subject_id : Z) (gold_label : value)
  : M (Z * value) :=
  ret (subject_id, gold_label).

(** [class AllTheSingleLabelsMinion(minion)] *)
Definition AllTheSingleLabelsMinion_init (id : Z) (name : string)
    (label : value) : M unit :=
  minion_init id name ;;
  setattr "label" label.

Definition AllTheSingleLabelsMinion_classify (subject_id : Z)
  : M (Z * value) :=
  label ← getattr "label";
  ret (subject_id, label).

(** [class RandomMinion(minion)] *)
Definition RandomMinion_init (id : Z) (name : string)
    (labels : list scalar) : M unit :=
  minion_init id name ;;
  setattr "labels" (VList labels).

Definition RandomMinion_classify (subject_id : Z) : M (Z * value) :=
  labels ← getattr "labels";
  label ← random_choice labels;
  ret (subject_id, label).

(** [class NoisyMinion(minion)] *)
Definition NoisyMinion_error : string :=
  "All confusion matrix elements must be in the" ++ "interval [0,1].".

Definition NoisyMinion_init (id : Z) (name : string)
    (confusion_matrix : list Q) : M unit :=
  minion_init id name ;;
  if any_lt confusion_matrix 0 && any_gt confusion_matrix 1
  then raise (ValueError NoisyMinion_error)
  else setattr "confusion_matrix" (VArray confusion_matrix).

Definition NoisyMinion_classify (subject_id : Z) (gold_label : Z)
  : M (Z * value) :=
  u ← random_random;
  confusion_matrix ← getattr "confusion_matrix";
  p ← getitem confusion_matrix gold_label;
  if Qltb u p
  then ret (subject_id, VScalar (SInt gold_label))
  else ret (subject_id, VScalar (SBool (gold_label =? 0))).
End Minions.

(** [calls n m]: [n] successive calls of [m], their results in order. *)
Fixpoint calls `{G : Generator} {A : Type} (n : nat) (m : M A) : M (list A) :=
  match n with
  | O => ret []
  | S n' =>
      r ← m;
      rs ← calls n' m;
      ret (r :: rs)
  end.

(** The attributes that the constructors set. *)
Definition minion_dict (id : Z) (name : string) : gmap string value :=
  <["name" := VScalar (SStr name)]> (<["id" := VScalar (SInt id)]> ∅).

Definition single_dict (id : Z) (name : string) (label : value)
  : gmap string value :=
  <["label" := label]> (minion_dict id name).

Definition random_dict (id : Z) (name : string) (labels : list scalar)
  : gmap string value :=
  <["labels" := VList labels]> (minion_dict id name).

Definition noisy_dict (id : Z) (name : string) (confusion_matrix : list Q)
  : gmap string value :=
  <["confusion_matrix" := VArray confusion_matrix]> (minion_dict id name).

(** The probability of an event over a list of equally likely outcomes. *)
Definition prob {A : Type} (event : A -> bool) (outcomes : list A) : Q :=
  Qmake (Z.of_nat (length (List.filter event outcomes)))
        (Pos.of_nat (length outcomes)).

(** The event that a call returned a label of [P]. *)
Definition label_event (P : scalar -> bool) (r : result (Z * value)) : bool :=
  match r with
  | Return (_, VScalar x) => P x
  | _ => false
  end.

(** The event that two calls returned a label of [P1], then a label of
    [P2]. *)
Definition label_event2 (P1 P2 : scalar -> bool)
    (r : result ((Z * value) * (Z * value))) : bool :=
  match r with
  | Return ((_, VScalar x), (_, VScalar y)) => P1 x && P2 y
  | _ => false
  end.

(** [m] leaves the attributes of its receiver as they are, whether it
    returns or raises. *)
Definition preserves_self `{G : Generator} {A : Type} (m : M A) : Prop :=
  forall w, self (m w).2 = self w.

(** [m] leaves the random generator as it is, whether it returns or
    raises. *)
Definition preserves_rng `{G : Generator} {A : Type} (m : M A) : Prop :=
  forall w, rng (m w).2 = rng w.

(** ** Successive draws *)

(** The values of [n] successive calls of [random.random()] from the state
    [s], and the state that they leave. *)
Fixpoint random_draws `{G : Generator} (n : nat) (s : gen_state)
  : list Q * gen_state :=
  match n with
  | O => ([], s)
  | S n' =>
      let d := gen_random s in
      let r := random_draws n' d.2 in
      (d.1 :: r.1, r.2)
  end.

(** The values of [n] successive calls of [_randbelow(m)] from the state
    [s], and the state that they leave. *)
Fixpoint randbelow_draws `{G : Generator} (m n : nat) (s : gen_state)
  : list nat * gen_state :=
  match n with
  | O => ([], s)
  | S n' =>
      let d := gen_randbelow m s in
      let r := randbelow_draws m n' d.2 in
      (d.1 :: r.1, r.2)
  end.

(** ** The script of [test.py] *)

(** How a run of the script ends: at its end, at a failed [assert], or at an
    exception that nothing catches. *)
Inductive outcome : Type :=
  | Passed
  | AssertionError
  | Uncaught (e : exn).

Definition script `{G : Generator} : Type := world -> outcome * world.

(** [v == z] for a label [v] and an integer [z]; a list is not equal to an
    integer.  No label of [main] is an array. *)
Definition label_eqb (v : value) (z : Z) : bool :=
  match v with
  | VScalar x => py_eq x (SInt z)
  | VList _ | VArray _ => false
  end.

Section Script.
Context `{G : Generator}.

Definition finish : script := fun w => (Passed, w).

(** A statement that evaluates [m], then the rest of the script. *)
Definition exec {A : Type} (m : M A) (k : A -> script) : script :=
  fun w =>
    match m w with
    | (Return a, w') => k a w'
    | (Raise e, w') => (Uncaught e, w')
    end.

(** [assert b] *)
Definition assert (b : bool) (k : script) : script :=
  fun w => if b then k w else (AssertionError, w).

(** [try: body] with [except NotImplementedError: pass] *)
Definition try_except_NotImplementedError (body : M unit) (k : script)
  : script :=
  fun w =>
    match body w with
    | (Return _, w') => k w'
    | (Raise NotImplementedError, w') => k w'
    | (Raise e, w') => (Uncaught e, w')
    end.

(** [names[i]] *)
Definition names_getitem (names : list string) (i : Z) : M string :=
  match index names i with
  | Some s => ret s
  | None => raise IndexError
  end.

(** [main()], for the [names] and the [labels] of the configuration. *)
Definition main (names : list string) (labels : list scalar) : script :=
  try_except_NotImplementedError
    (bind (names_getitem names 0) (fun n0 => new (minion_init 0 n0)))
  (exec (bind (names_getitem names 1)
           (fun n1 => new (ExpertMinion_init 1 n1))) (fun _ =>
   exec (ExpertMinion_classify 1 (SInt 0)) (fun r =>
   assert (label_eqb r.2 0)
  (exec (bind (names_getitem names 2)
           (fun n2 => new (AllTheSingleLabelsMinion_init 2 n2 (SInt 0))))
     (fun _ =>
   exec (AllTheSingleLabelsMinion_classify 1) (fun r =>
   assert (label_eqb r.2 0)
  (exec (bind (names_getitem names 3)
           (fun n3 => new (AllTheSingleLabelsMinion_init 3 n3 (SInt 1))))
     (fun _ =>
   exec (AllTheSingleLabelsMinion_classify 1) (fun r =>
   assert (label_eqb r.2 1)
  (exec (bind (names_getitem names 4)
           (fun n4 => new (RandomMinion_init 4 n4 labels))) (fun _ =>
   exec (calls 100 (RandomMinion_classify 1)) (fun rs =>
   let x := map snd rs in
   assert (existsb (fun v => label_eqb v 0) x)
  (assert (existsb (fun v => label_eqb v 1) x)
   finish))))))))))))).
End Script.

(** Whether a run of the script reached its end. *)
Definition passed (o : outcome) : bool :=
  match o with
  | Passed => true
  | AssertionError | Uncaught _ => false
  end.

(** The sequences of [n] raw draws of 0 or 1: the equally likely tapes of [n]
    calls of [_randbelow(2)]. *)
Fixpoint tapes (n : nat) : list (list Z) :=
  match n with
  | O => [[]]
  | S n' => map (cons 0) (tapes n') ++ map (cons 1) (tapes n')
  end.

(** ** The tape generator *)

Lemma tape_random_range (t : list Z) : (0 <= (tape_random t).1 < 1)%Q.
Proof.
  destruct t as [|r t']; simpl; [split; [apply Qle_refl | reflexivity]|].
  pose proof (Z.mod_pos_bound r (2 ^ 53) eq_refl) as [Hlo Hhi].
  unfold Qle, Qlt; simpl. split; lia.
Qed.

Lemma tape_randbelow_range (n : nat) (t : list Z) :
  (0 < n)%nat -> ((tape_randbelow n t).1 < n)%nat.
Proof.
  intros Hn. destruct t as [|r t']; simpl; [exact Hn|].
  pose proof (Z.mod_pos_bound r (Z.of_nat n) ltac:(lia)). lia.
Qed.

Definition tape_generator : Generator := {|
  gen_state := list Z;
  gen_random := tape_random;
  gen_randbelow := tape_randbelow;
  gen_random_range := tape_random_range;
  gen_randbelow_range := tape_randbelow_range
|}.

(** The outcomes of [RandomMinion(id, name, labels).classify(subject_id)] over
    the [len(labels)] equally likely values of [_randbelow(len(labels))]. *)
Definition RandomMinion_outcomes (id : Z) (name : string)
    (labels : list scalar) (subject_id : Z) : list (result (Z * value)) :=
  map (fun k =>
         ((new (RandomMinion_init id name labels) ;;
           RandomMinion_classify subject_id)
            (World tape_generator ∅ [Z.of_nat k])).1)
      (seq 0 (length labels)).

(** The outcomes of two successive calls of [classify] on one [RandomMinion]
    over the equally likely pairs of values of [_randbelow(len(labels))]. *)
Definition RandomMinion_outcomes2 (id : Z) (name : string)
    (labels : list scalar) (s1 s2 : Z)
  : list (result ((Z * value) * (Z * value))) :=
  map (fun k : nat * nat =>
         ((new (RandomMinion_init id name labels) ;;
           r1 ← RandomMinion_classify s1;
           r2 ← RandomMinion_classify s2;
           ret (r1, r2))
            (World tape_generator ∅ [Z.of_nat k.1; Z.of_nat k.2])).1)
      (list_prod (seq 0 (length labels)) (seq 0 (length labels))).

(** ** Comparisons on floats *)

Lemma Qltb_lt (x y : Q) : Qltb x y = true <-> (x < y)%Q.
Proof.
  unfold Qltb. rewrite negb_true_iff.
  split.
  - intros Hb. apply Qnot_le_lt. intros Hle.
    apply Qle_bool_iff in Hle. congruence.
  - intros Hlt. destruct (Qle_bool y x) eqn:Hb; [|reflexivity].
    apply Qle_bool_iff in Hb. exfalso. exact (Qlt_not_le _ _ Hlt Hb).
Qed.

Lemma Qltb_ge (x y : Q) : Qltb x y = false <-> (y <= x)%Q.
Proof.
  unfold Qltb. rewrite negb_false_iff. apply Qle_bool_iff.
Qed.

Lemma any_lt_spec (a : list Q) (c : Q) :
  any_lt a c = true <-> exists x, x ∈ a /\ (x < c)%Q.
Proof.
  unfold any_lt. rewrite existsb_exists. split.
  - intros (x & Hin & Hx). exists x. split.
    + by apply list_elem_of_In.
    + by apply Qltb_lt.
  - intros (x & Hin & Hx). exists x. split.
    + by apply list_elem_of_In.
    + by apply Qltb_lt.
Qed.

Lemma any_gt_spec (a : list Q) (c : Q) :
  any_gt a c = true <-> exists x, x ∈ a /\ (c < x)%Q.
Proof.
  unfold any_gt. rewrite existsb_exists. split.
  - intros (x & Hin & Hx). exists x. split.
    + by apply list_elem_of_In.
    + by apply Qltb_lt.
  - intros (x & Hin & Hx). exists x. split.
    + by apply list_elem_of_In.
    + by apply Qltb_lt.
Qed.

(** A matrix within [[0,1]] has no element on either side. *)
Lemma any_lt_in_range (a : list Q) :
  Forall (fun x => (0 <= x <= 1)%Q) a -> any_lt a 0 = false /\ any_gt a 1 = false.
Proof.
  induction 1 as [|x a [Hlo Hhi] _ [IHlt IHgt]]; [done|].
  unfold any_lt, any_gt in *; simpl. rewrite IHlt, IHgt.
  split; apply orb_false_iff; split; try done; by apply Qltb_ge.
Qed.

(** Every float of [[0,1)] is the draw of some generator: a statement over
    all generators and states is a statement over all draws. *)
Lemma every_draw_is_generated (u : Q) :
  (0 <= u < 1)%Q -> exists (G : Generator) (s : gen_state), (gen_random s).1 = u.
Proof.
  intros Hu.
  exists {| gen_state := unit;
            gen_random := fun _ => (u, tt);
            gen_randbelow := fun _ _ => (0%nat, tt);
            gen_random_range := fun _ => Hu;
            gen_randbelow_range := fun n _ Hn => Hn |}.
  by exists tt.
Qed.

(** ** Running the constructors *)

Section Constructors.
Context `{G : Generator}.

Lemma minion_init_run (id : Z) (name : string) (w : world) :
  minion_init id name w
  = (Return tt,
     World G (<["name" := VScalar (SStr name)]>
                (<["id" := VScalar (SInt id)]> (self w))) (rng w)).
Proof. reflexivity. Qed.

Lemma new_minion (id : Z) (name : string) (w : world) :
  new (minion_init id name) w
  = (Return tt, World G (minion_dict id name) (rng w)).
Proof. reflexivity. Qed.

Lemma new_ExpertMinion (id : Z) (name : string) (w : world) :
  new (ExpertMinion_init id name) w
  = (Return tt, World G (minion_dict id name) (rng w)).
Proof. reflexivity. Qed.

Lemma new_AllTheSingleLabelsMinion (id : Z) (name : string) (label : value)
    (w : world) :
  new (AllTheSingleLabelsMinion_init id name label) w
  = (Return tt, World G (single_dict id name label) (rng w)).
Proof. reflexivity. Qed.

Lemma new_RandomMinion (id : Z) (name : string) (labels : list scalar)
    (w : world) :
  new (RandomMinion_init id name labels) w
  = (Return tt, World G (random_dict id name labels) (rng w)).
Proof. reflexivity. Qed.

Lemma new_NoisyMinion (id : Z) (name : string) (cm : list Q) (w : world) :
  new (NoisyMinion_init id name cm) w
  = if any_lt cm 0 && any_gt cm 1
    then (Raise (ValueError NoisyMinion_error),
          World G (minion_dict id name) (rng w))
    else (Return tt, World G (noisy_dict id name cm) (rng w)).
Proof.
  unfold new, NoisyMinion_init, bind. rewrite minion_init_run.
  by destruct (any_lt cm 0 && any_gt cm 1).
Qed.

Lemma new_NoisyMinion_in_range (id : Z) (name : string) (cm : list Q)
    (w : world) :
  Forall (fun x => (0 <= x <= 1)%Q) cm ->
  new (NoisyMinion_init id name cm) w
  = (Return tt, World G (noisy_dict id name cm) (rng w)).
Proof.
  intros Hcm. rewrite new_NoisyMinion.
  destruct (any_lt_in_range cm Hcm) as [-> _]. reflexivity.
Qed.

(** A call on a freshly constructed object. *)
Lemma bind_new {A : Type} (init : M unit) (m : M A) (w : world)
    (d : gmap string value) :
  new init w = (Return tt, World G d (rng w)) ->
  (new init ;; m) w = m (World G d (rng w)).
Proof. unfold bind. by intros ->. Qed.

Lemma minion_dict_lookup (id : Z) (name : string) :
  minion_dict id name !! "id" = Some (VScalar (SInt id))
  /\ minion_dict id name !! "name" = Some (VScalar (SStr name))
  /\ minion_dict id name !! "label" = None
  /\ minion_dict id name !! "labels" = None
  /\ minion_dict id name !! "confusion_matrix" = None.
Proof. unfold minion_dict. by simplify_map_eq. Qed.
End Constructors.

(** ** Methods that only read their receiver *)

Section Frame.
Context `{G : Generator}.

Lemma preserves_ret {A : Type} (a : A) : preserves_self (ret a).
Proof. by intros w. Qed.

Lemma preserves_raise {A : Type} (e : exn) : preserves_self (@raise G A e).
Proof. by intros w. Qed.

Lemma preserves_getattr (name : string) : preserves_self (getattr name).
Proof. intros w. unfold getattr. by destruct (self w !! name). Qed.

Lemma preserves_random_random : preserves_self random_random.
Proof. intros w. unfold random_random. by destruct (gen_random (rng w)). Qed.

Lemma preserves_bind {A B : Type} (m : M A) (k : A -> M B) :
  preserves_self m -> (forall a, preserves_self (k a)) ->
  preserves_self (bind m k).
Proof.
  intros Hm Hk w. unfold bind. specialize (Hm w).
  destruct (m w) as [[a|e] w']; simpl in *; [|done].
  by rewrite Hk.
Qed.

Lemma preserves_choice {A : Type} (seq : list A) : preserves_self (choice seq).
Proof.
  intros w. unfold choice. destruct seq as [|x seq]; [done|].
  destruct (gen_randbelow _ _) as [k s]. by destruct (_ !! k).
Qed.

Lemma preserves_random_choice (seq : value) :
  preserves_self (random_choice seq).
Proof.
  destruct seq as [x|l|a]; simpl.
  - apply preserves_raise.
  - apply preserves_bind; [apply preserves_choice|]. intros; apply preserves_ret.
  - apply preserves_bind; [apply preserves_choice|]. intros; apply preserves_ret.
Qed.

Lemma preserves_getitem (a : value) (i : Z) : preserves_self (getitem a i).
Proof.
  destruct a as [x|l|qs]; simpl; try apply preserves_raise.
  destruct (index qs i); [apply preserves_ret | apply preserves_raise].
Qed.

Lemma preserves_if {A : Type} (b : bool) (m1 m2 : M A) :
  preserves_self m1 -> preserves_self m2 ->
  preserves_self (if b then m1 else m2).
Proof. by destruct b. Qed.

Lemma preserves_calls {A : Type} (n : nat) (m : M A) :
  preserves_self m -> preserves_self (calls n m).
Proof.
  intros Hm. induction n as [|n IH]; simpl; [apply preserves_ret|].
  apply preserves_bind; [done|]. intros r.
  apply preserves_bind; [done|]. intros rs. apply preserves_ret.
Qed.
End Frame.

Create HintDb frame.
#[export] Hint Resolve preserves_ret preserves_raise preserves_getattr
  preserves_random_random preserves_choice preserves_random_choice
  preserves_getitem : frame.

Ltac frame :=
  repeat first
    [ apply preserves_bind; [|intros ?]
    | apply preserves_if
    | solve [auto with frame] ].

Section FrameClassify.
Context `{G : Generator}.

Lemma minion_classify_frame (sid : Z) : preserves_self (minion_classify sid).
Proof. unfold minion_classify. frame. Qed.

Lemma ExpertMinion_classify_frame (sid : Z) (gold : value) :
  preserves_self (ExpertMinion_classify sid gold).
Proof. unfold ExpertMinion_classify. frame. Qed.

Lemma AllTheSingleLabelsMinion_classify_frame (sid : Z) :
  preserves_self (AllTheSingleLabelsMinion_classify sid).
Proof. unfold AllTheSingleLabelsMinion_classify. frame. Qed.

Lemma RandomMinion_classify_frame (sid : Z) :
  preserves_self (RandomMinion_classify sid).
Proof. unfold RandomMinion_classify. frame. Qed.

Lemma NoisyMinion_classify_frame (sid gold : Z) :
  preserves_self (NoisyMinion_classify sid gold).
Proof. unfold NoisyMinion_classify. frame. Qed.
End FrameClassify.

(** ** The abstract class and the deterministic classifiers *)

(** C7: [classify] of the abstract class [minion] raises
    [NotImplementedError] for every subject, on any receiver and on a freshly
    constructed [minion]; constructing a [minion] does not raise and sets
    [id] and [name]. *)
Theorem minion_classify_not_implemented `{G : Generator} :
  (forall (subject_id : Z) (w : world),
      minion_classify subject_id w = (Raise NotImplementedError, w))
  /\ (forall (id : Z) (name : string) (w : world),
         new (minion_init id name) w
         = (Return tt, World G (minion_dict id name) (rng w)))
  /\ (forall (id : Z) (name : string) (subject_id : Z) (w : world),
         ((new (minion_init id name) ;; minion_classify subject_id) w).1
         = Raise NotImplementedError).
Proof. repeat split. Qed.

(** C4: [classify(subject_id, gold_label)] of an [ExpertMinion] returns the
    pair [(subject_id, gold_label)], for every expert, subject and gold
    label; [ExpertMinion(1, "e").classify(7, 1)] is [(7, 1)]. *)
Theorem ExpertMinion_classify_returns_gold `{G : Generator} :
  (forall (id : Z) (name : string) (subject_id : Z) (gold_label : value)
          (w : world),
      ((new (ExpertMinion_init id name) ;;
        ExpertMinion_classify subject_id gold_label) w).1
      = Return (subject_id, gold_label))
  /\ (forall (w : world),
         ((new (ExpertMinion_init 1 "e") ;;
           ExpertMinion_classify 7 (SInt 1)) w).1
         = Return (7, VScalar (SInt 1))).
Proof. split; reflexivity. Qed.

(** C5: [classify(subject_id)] of an [AllTheSingleLabelsMinion] constructed
    with the label [L] returns [(subject_id, L)] for every subject; no gold
    label enters the call.  [AllTheSingleLabelsMinion(2, "a", 0).classify(9)]
    is [(9, 0)] and [AllTheSingleLabelsMinion(3, "b", 1).classify(9)] is
    [(9, 1)]. *)
Theorem AllTheSingleLabelsMinion_classify_constant `{G : Generator} :
  (forall (id : Z) (name : string) (L : value) (subject_id : Z) (w : world),
      ((new (AllTheSingleLabelsMinion_init id name L) ;;
        AllTheSingleLabelsMinion_classify subject_id) w).1
      = Return (subject_id, L))
  /\ (forall (w : world),
         ((new (AllTheSingleLabelsMinion_init 2 "a" (SInt 0)) ;;
           AllTheSingleLabelsMinion_classify 9) w).1
         = Return (9, VScalar (SInt 0)))
  /\ (forall (w : world),
         ((new (AllTheSingleLabelsMinion_init 3 "b" (SInt 1)) ;;
           AllTheSingleLabelsMinion_classify 9) w).1
         = Return (9, VScalar (SInt 1))).
Proof. repeat split. Qed.

(** ** The validation of the confusion matrix *)

(** C1: constructing [NoisyMinion(id, name, [1.5, 0.2])] raises nothing: the
    constructor returns and stores the matrix, although 1.5 is outside
    [[0,1]]. *)
Theorem NoisyMinion_init_accepts_out_of_range `{G : Generator}
    (id : Z) (name : string) (w : world) :
  new (NoisyMinion_init id name [3 # 2; 1 # 5]%Q) w
  = (Return tt, World G (noisy_dict id name [3 # 2; 1 # 5]%Q) (rng w)).
Proof. by rewrite new_NoisyMinion. Qed.

(** C10: the constructor of [NoisyMinion] raises [ValueError] exactly when
    the matrix has both an element below 0 and an element above 1.  When it
    raises, [confusion_matrix] is not set; otherwise the matrix is stored as
    given.  So [[1.5, 0.2]] and [[-0.5, 0.5]] are accepted and [[-0.5, 1.5]]
    is rejected. *)
Theorem NoisyMinion_init_raises_iff `{G : Generator} :
  (forall (id : Z) (name : string) (cm : list Q) (w : world),
      let r := new (NoisyMinion_init id name cm) w in
      ((exists e, r.1 = Raise e)
       <-> (exists x, x ∈ cm /\ (x < 0)%Q) /\ (exists y, y ∈ cm /\ (1 < y)%Q))
      /\ (r.1 = Raise (ValueError NoisyMinion_error)
          /\ self r.2 !! "confusion_matrix" = None
          \/ r.1 = Return tt
             /\ self r.2 !! "confusion_matrix" = Some (VArray cm)))
  /\ (forall (w : world),
         (new (NoisyMinion_init 0 "n" [3 # 2; 1 # 5]%Q) w).1 = Return tt
         /\ (new (NoisyMinion_init 0 "n" [-1 # 2; 1 # 2]%Q) w).1 = Return tt
         /\ (new (NoisyMinion_init 0 "n" [-1 # 2; 3 # 2]%Q) w).1
            = Raise (ValueError NoisyMinion_error)
         /\ self (new (NoisyMinion_init 0 "n" [-1 # 2; 3 # 2]%Q) w).2
              !! "confusion_matrix" = None).
Proof.
  split.
  - intros id name cm w r. subst r. rewrite new_NoisyMinion.
    rewrite <- any_lt_spec, <- any_gt_spec, <- andb_true_iff.
    destruct (any_lt cm 0 && any_gt cm 1); simpl; split.
    + split; [done | by eexists].
    + left. split; [done|]. apply minion_dict_lookup.
    + split; [by intros [e He] | done].
    + right. split; [done|]. unfold noisy_dict. by simplify_map_eq.
  - intros w. rewrite !new_NoisyMinion. repeat split.
Qed.

(** ** The noisy classifier *)

Section Noisy.
Context `{G : Generator}.

(** One call of [classify] on a [NoisyMinion] whose matrix has an element
    at [gold_label]. *)
Lemma NoisyMinion_classify_run (cm : list Q) (p : Q) (sid gold : Z)
    (w : world) :
  self w !! "confusion_matrix" = Some (VArray cm) ->
  index cm gold = Some p ->
  NoisyMinion_classify sid gold w
  = (Return (sid,
             if Qltb (gen_random (rng w)).1 p
             then VScalar (SInt gold)
             else VScalar (SBool (gold =? 0))),
     World G (self w) (gen_random (rng w)).2).
Proof.
  intros Hcm Hp. unfold NoisyMinion_classify, bind, random_random.
  destruct (gen_random (rng w)) as [u s]; simpl.
  unfold getattr; simpl. rewrite Hcm; simpl. rewrite Hp.
  unfold ret; simpl. by destruct (Qltb u p).
Qed.

Lemma noisy_dict_lookup (id : Z) (name : string) (cm : list Q) :
  noisy_dict id name cm !! "confusion_matrix" = Some (VArray cm)
  /\ noisy_dict id name cm !! "id" = Some (VScalar (SInt id))
  /\ noisy_dict id name cm !! "name" = Some (VScalar (SStr name)).
Proof. unfold noisy_dict, minion_dict. by simplify_map_eq. Qed.

Lemma index_binary (p0 p1 : Q) (gold : Z) :
  gold = 0 \/ gold = 1 ->
  index [p0; p1] gold = Some (if gold =? 0 then p0 else p1).
Proof. by intros [-> | ->]. Qed.

(** The flipped label [gold_label == 0] compares equal to the other label
    of [{0,1}]. *)
Lemma flipped_label (gold : Z) :
  gold = 0 \/ gold = 1 ->
  py_eq (SBool (gold =? 0)) (SInt (1 - gold)) = true.
Proof. by intros [-> | ->]. Qed.
End Noisy.

(** C2: on a [NoisyMinion] constructed with [[p0, p1]] within [[0,1]], for a
    gold label of [{0,1}] and the draw [u] of [random.random()], which lies
    in [[0,1)]: [classify(subject_id, gold_label)] returns
    [(subject_id, gold_label)] when [u < confusion_matrix[gold_label]], and
    otherwise [(subject_id, f)] with [f] the flipped label: [f] is the value
    of [gold_label == 0], which is equal ([==]) to [1 - gold_label]. *)
Theorem NoisyMinion_classify_channel `{G : Generator}
    (id : Z) (name : string) (p0 p1 : Q) (subject_id gold_label : Z)
    (w : world) :
  (0 <= p0 <= 1)%Q -> (0 <= p1 <= 1)%Q ->
  gold_label = 0 \/ gold_label = 1 ->
  let u := (gen_random (rng w)).1 in
  let r := ((new (NoisyMinion_init id name [p0; p1]) ;;
             NoisyMinion_classify subject_id gold_label) w).1 in
  (0 <= u < 1)%Q
  /\ exists p : Q,
      index [p0; p1] gold_label = Some p
      /\ ((u < p)%Q -> r = Return (subject_id, VScalar (SInt gold_label)))
      /\ (~ (u < p)%Q ->
          exists f : scalar,
            r = Return (subject_id, VScalar f)
            /\ f = SBool (gold_label =? 0)
            /\ py_eq f (SInt (1 - gold_label)) = true).
Proof.
  intros Hp0 Hp1 Hgold u r. split; [apply gen_random_range|].
  exists (if gold_label =? 0 then p0 else p1).
  split; [by apply index_binary|].
  subst r. rewrite (bind_new _ _ _ (noisy_dict id name [p0; p1]));
    [|apply new_NoisyMinion_in_range; repeat (apply Forall_cons_2; [done|]);
      apply Forall_nil_2].
  erewrite NoisyMinion_classify_run;
    [|apply noisy_dict_lookup|by apply index_binary].
  simpl. fold u. split.
  - intros Hlt. apply Qltb_lt in Hlt. by rewrite Hlt.
  - intros Hge. destruct (Qltb u _) eqn:Hb.
    + apply Qltb_lt in Hb. contradiction.
    + eexists. split; [reflexivity|]. split; [reflexivity|].
      by apply flipped_label.
Qed.

(** C3: a [NoisyMinion] constructed with the matrix [[1, 1]] returns, for
    every subject, every gold label of [{0,1}] and every draw of
    [random.random()], the pair [(subject_id, gold_label)], which is what an
    [ExpertMinion] returns. *)
Theorem NoisyMinion_ones_is_expert `{G : Generator}
    (id : Z) (name : string) (subject_id gold_label : Z) (w : world) :
  gold_label = 0 \/ gold_label = 1 ->
  let r := ((new (NoisyMinion_init id name [1; 1]%Q) ;;
             NoisyMinion_classify subject_id gold_label) w).1 in
  r = Return (subject_id, VScalar (SInt gold_label))
  /\ r = ((new (ExpertMinion_init id name) ;;
           ExpertMinion_classify subject_id (SInt gold_label)) w).1.
Proof.
  intros Hgold r.
  assert (r = Return (subject_id, VScalar (SInt gold_label))) as Hr; [|done].
  assert ((0 <= 1 <= 1)%Q) as Hone by (split; apply Qle_bool_iff; reflexivity).
  subst r. rewrite (bind_new _ _ _ (noisy_dict id name [1; 1]%Q));
    [|apply new_NoisyMinion_in_range; repeat (apply Forall_cons_2; [done|]);
      apply Forall_nil_2].
  erewrite NoisyMinion_classify_run;
    [|apply noisy_dict_lookup|by apply index_binary].
  simpl. destruct (gen_random_range (rng w)) as [_ Hlt].
  assert ((if gold_label =? 0 then 1%Q else 1%Q) = 1%Q) as -> by (by destruct (_ =? _)).
  apply Qltb_lt in Hlt. by rewrite Hlt.
Qed.

(** ** Repeated calls and the state of the receiver *)

Section Repeated.
Context `{G : Generator}.

(** A method that returns [r] and changes nothing on the worlds of [P]
    returns [r] at each of [n] successive calls. *)
Lemma calls_const {A : Type} (m : M A) (r : A) (P : world -> Prop) :
  (forall w, P w -> m w = (Return r, w)) ->
  forall n w, P w -> calls n m w = (Return (replicate n r), w).
Proof.
  intros Hm n. induction n as [|n IH]; intros w Hw; [done|].
  simpl. unfold bind. rewrite (Hm w Hw), (IH w Hw). reflexivity.
Qed.

Lemma AllTheSingleLabelsMinion_classify_run (sid : Z) (L : value)
    (w : world) :
  self w !! "label" = Some L ->
  AllTheSingleLabelsMinion_classify sid w = (Return (sid, L), w).
Proof.
  intros HL. unfold AllTheSingleLabelsMinion_classify, bind, getattr.
  by rewrite HL.
Qed.

Lemma AllTheSingleLabelsMinion_classify_self (sid : Z) (w1 w2 : world) :
  self w1 = self w2 ->
  (AllTheSingleLabelsMinion_classify sid w1).1
  = (AllTheSingleLabelsMinion_classify sid w2).1.
Proof.
  intros Hself. unfold AllTheSingleLabelsMinion_classify, bind, getattr.
  rewrite Hself. by destruct (self w2 !! "label").
Qed.

(** What follows a call that only reads finds the receiver as the
    constructor left it. *)
Lemma frame_after {A : Type} (init : M unit) (m : M A) (w : world) :
  preserves_self m -> self ((init ;; m) w).2 = self (init w).2.
Proof.
  intros Hm. unfold bind. destruct (init w) as [[[]|e] w']; simpl; [|done].
  apply Hm.
Qed.

Lemma single_dict_lookup (id : Z) (name : string) (L : value) :
  single_dict id name L !! "id" = Some (VScalar (SInt id))
  /\ single_dict id name L !! "name" = Some (VScalar (SStr name))
  /\ single_dict id name L !! "label" = Some L.
Proof. unfold single_dict, minion_dict. by simplify_map_eq. Qed.

Lemma random_dict_lookup (id : Z) (name : string) (labels : list scalar) :
  random_dict id name labels !! "id" = Some (VScalar (SInt id))
  /\ random_dict id name labels !! "name" = Some (VScalar (SStr name))
  /\ random_dict id name labels !! "labels" = Some (VList labels).
Proof. unfold random_dict, minion_dict. by simplify_map_eq. Qed.
End Repeated.

(** C8: [classify] of an [ExpertMinion] and of an [AllTheSingleLabelsMinion]
    is deterministic: two calls with the same arguments return the same,
    whatever the state of the random generator, and each of [n] successive
    calls returns the same pair.  For the expert this holds on any two
    receivers [e1] and [e2], for the constant classifier on any two receivers
    with the same attributes, [label] among them. *)
Theorem deterministic_classify_idempotent `{G : Generator}
    (subject_id : Z) (gold_label L : value) (n : nat) (w1 w2 : world) :
  self w1 = self w2 ->
  self w1 !! "label" = Some L ->
  (forall e1 e2 : world,
      (ExpertMinion_classify subject_id gold_label e1).1
      = (ExpertMinion_classify subject_id gold_label e2).1
      /\ (calls n (ExpertMinion_classify subject_id gold_label) e1).1
         = Return (replicate n (subject_id, gold_label))
      /\ (calls n (ExpertMinion_classify subject_id gold_label) e2).1
         = Return (replicate n (subject_id, gold_label)))
  /\ (AllTheSingleLabelsMinion_classify subject_id w1).1
     = (AllTheSingleLabelsMinion_classify subject_id w2).1
  /\ (calls n (AllTheSingleLabelsMinion_classify subject_id) w1).1
     = Return (replicate n (subject_id, L))
  /\ (calls n (AllTheSingleLabelsMinion_classify subject_id) w2).1
     = Return (replicate n (subject_id, L)).
Proof.
  intros Hself HL.
  assert (forall w, self w !! "label" = Some L ->
            (calls n (AllTheSingleLabelsMinion_classify subject_id) w).1
            = Return (replicate n (subject_id, L))) as Hsingle.
  { intros w Hw.
    rewrite (calls_const _ (subject_id, L)
               (fun w => self w !! "label" = Some L)); [done| |done].
    intros w' Hw'. by apply AllTheSingleLabelsMinion_classify_run. }
  assert (forall w,
            (calls n (ExpertMinion_classify subject_id gold_label) w).1
            = Return (replicate n (subject_id, gold_label))) as Hexpert.
  { intros w.
    by rewrite (calls_const _ (subject_id, gold_label) (fun _ => True)). }
  repeat split; auto.
  - by apply AllTheSingleLabelsMinion_classify_self.
  - apply Hsingle. by rewrite <- Hself.
Qed.

Lemma deterministic_classify_idempotent_witness :
  let w1 := World tape_generator (single_dict 2 "a" (SInt 0)) [3] in
  let w2 := World tape_generator (single_dict 2 "a" (SInt 0)) [7; 8] in
  (forall e1 e2 : @world tape_generator,
      (ExpertMinion_classify 9 (SInt 1) e1).1
      = (ExpertMinion_classify 9 (SInt 1) e2).1
      /\ (calls 3 (ExpertMinion_classify 9 (SInt 1)) e1).1
         = Return (replicate 3 (9, VScalar (SInt 1)))
      /\ (calls 3 (ExpertMinion_classify 9 (SInt 1)) e2).1
         = Return (replicate 3 (9, VScalar (SInt 1))))
  /\ (AllTheSingleLabelsMinion_classify 9 w1).1
     = (AllTheSingleLabelsMinion_classify 9 w2).1
  /\ (calls 3 (AllTheSingleLabelsMinion_classify 9) w1).1
     = Return (replicate 3 (9, VScalar (SInt 0)))
  /\ (calls 3 (AllTheSingleLabelsMinion_classify 9) w2).1
     = Return (replicate 3 (9, VScalar (SInt 0))).
Proof.
  intros w1 w2.
  apply (@deterministic_classify_idempotent tape_generator
           9 (SInt 1) (SInt 0) 3 w1 w2).
  - reflexivity.
  - reflexivity.
Defined.

(** C9: no [classify] changes its receiver.  Whatever the receiver and
    however many calls are made, its attributes after the calls are its
    attributes before them, for the abstract class and the four variants,
    whether the calls return or raise.  On a constructed object, [id],
    [name] and the parameter of the variant ([label], [labels],
    [confusion_matrix]) still hold what the constructor stored, and no other
    attribute has appeared. *)
Theorem classify_leaves_state_unchanged `{G : Generator}
    (n : nat) (subject_id gold : Z) (gold_label : value) :
  (forall w : world,
      self (calls n (minion_classify subject_id) w).2 = self w
      /\ self (calls n (ExpertMinion_classify subject_id gold_label) w).2
         = self w
      /\ self (calls n (AllTheSingleLabelsMinion_classify subject_id) w).2
         = self w
      /\ self (calls n (RandomMinion_classify subject_id) w).2 = self w
      /\ self (calls n (NoisyMinion_classify subject_id gold) w).2 = self w)
  /\ (forall (id : Z) (name : string) (w : world),
         let d := self ((new (ExpertMinion_init id name) ;;
                         calls n (ExpertMinion_classify subject_id gold_label))
                          w).2 in
         d = minion_dict id name
         /\ d !! "id" = Some (VScalar (SInt id))
         /\ d !! "name" = Some (VScalar (SStr name)))
  /\ (forall (id : Z) (name : string) (label : value) (w : world),
         let d := self ((new (AllTheSingleLabelsMinion_init id name label) ;;
                         calls n (AllTheSingleLabelsMinion_classify subject_id))
                          w).2 in
         d = single_dict id name label
         /\ d !! "id" = Some (VScalar (SInt id))
         /\ d !! "name" = Some (VScalar (SStr name))
         /\ d !! "label" = Some label)
  /\ (forall (id : Z) (name : string) (labels : list scalar) (w : world),
         let d := self ((new (RandomMinion_init id name labels) ;;
                         calls n (RandomMinion_classify subject_id)) w).2 in
         d = random_dict id name labels
         /\ d !! "id" = Some (VScalar (SInt id))
         /\ d !! "name" = Some (VScalar (SStr name))
         /\ d !! "labels" = Some (VList labels))
  /\ (forall (id : Z) (name : string) (cm : list Q) (w : world),
         any_lt cm 0 && any_gt cm 1 = false ->
         let d := self ((new (NoisyMinion_init id name cm) ;;
                         calls n (NoisyMinion_classify subject_id gold)) w).2 in
         d = noisy_dict id name cm
         /\ d !! "id" = Some (VScalar (SInt id))
         /\ d !! "name" = Some (VScalar (SStr name))
         /\ d !! "confusion_matrix" = Some (VArray cm)).
Proof.
  split; [|split; [|split; [|split]]].
  - intros w. repeat split; apply preserves_calls.
    + apply minion_classify_frame.
    + apply ExpertMinion_classify_frame.
    + apply AllTheSingleLabelsMinion_classify_frame.
    + apply RandomMinion_classify_frame.
    + apply NoisyMinion_classify_frame.
  - intros id name w d. subst d.
    rewrite frame_after
      by (apply preserves_calls, ExpertMinion_classify_frame).
    rewrite new_ExpertMinion; simpl. split; [done|].
    split; apply minion_dict_lookup.
  - intros id name label w d. subst d.
    rewrite frame_after
      by (apply preserves_calls, AllTheSingleLabelsMinion_classify_frame).
    rewrite new_AllTheSingleLabelsMinion; simpl. split; [done|].
    apply single_dict_lookup.
  - intros id name labels w d. subst d.
    rewrite frame_after
      by (apply preserves_calls, RandomMinion_classify_frame).
    rewrite new_RandomMinion; simpl. split; [done|].
    apply random_dict_lookup.
  - intros id name cm w Hok d. subst d.
    rewrite frame_after
      by (apply preserves_calls, NoisyMinion_classify_frame).
    rewrite new_NoisyMinion, Hok; simpl. split; [done|].
    pose proof (noisy_dict_lookup id name cm) as (? & ? & ?). done.
Qed.

Lemma classify_leaves_state_unchanged_witness :
  let d := self ((new (NoisyMinion_init 4 "d" [1 # 4; 3 # 4]%Q) ;;
                  calls 5 (NoisyMinion_classify 7 1))
                   (World tape_generator ∅ [1; 2 ^ 53 - 1; 5; 2 ^ 52])).2 in
  d = noisy_dict 4 "d" [1 # 4; 3 # 4]%Q
  /\ d !! "id" = Some (VScalar (SInt 4))
  /\ d !! "name" = Some (VScalar (SStr "d"))
  /\ d !! "confusion_matrix" = Some (VArray [1 # 4; 3 # 4]%Q).
Proof.
  apply (@classify_leaves_state_unchanged tape_generator 5 7 1
           (VScalar (SInt 1))).
  reflexivity.
Defined.

(** ** The random classifier *)

Lemma filter_map_length {A B : Type} (E : B -> bool) (f : A -> B)
    (l : list A) :
  length (List.filter E (map f l)) = length (List.filter (fun x => E (f x)) l).
Proof.
  induction l as [|a l IH]; [done|].
  simpl. destruct (E (f a)); simpl; by rewrite IH.
Qed.

Section Counting.
Context {A B : Type}.

(** A function of the position that agrees with [g] on the elements maps
    the positions to the image of the list. *)
Lemma map_seq_lookup (F : nat -> B) (g : A -> B) (l : list A) (j : nat) :
  (forall k x, l !! k = Some x -> F (j + k)%nat = g x) ->
  map F (seq j (length l)) = map g l.
Proof.
  revert j. induction l as [|a l IH]; intros j HF; [done|].
  simpl. f_equal.
  - rewrite <- (HF 0%nat a eq_refl). f_equal. lia.
  - apply IH. intros k x Hk.
    rewrite <- (HF (S k) x Hk). f_equal. lia.
Qed.

Lemma map_prod_seq_lookup (F : nat * nat -> B) (g : A * A -> B)
    (l1 l2 : list A) (j : nat) :
  (forall k1 k2 x y,
      l1 !! k1 = Some x -> l2 !! k2 = Some y ->
      F ((j + k1)%nat, k2) = g (x, y)) ->
  map F (list_prod (seq j (length l1)) (seq 0 (length l2)))
  = map g (list_prod l1 l2).
Proof.
  revert j. induction l1 as [|a l1 IH]; intros j HF; [done|].
  simpl. rewrite !map_app, !map_map. f_equal.
  - apply (map_seq_lookup (fun k => F (j, k)) (fun y => g (a, y)) l2 0).
    intros k y Hk. rewrite <- (HF 0%nat k a y eq_refl Hk).
    do 2 f_equal. lia.
  - apply IH. intros k1 k2 x y Hk1 Hk2.
    rewrite <- (HF (S k1) k2 x y Hk1 Hk2). do 2 f_equal. lia.
Qed.

Lemma filter_prod_length (E1 E2 : A -> bool) (l1 l2 : list A) :
  length (List.filter (fun p : A * A => E1 p.1 && E2 p.2) (list_prod l1 l2))
  = (length (List.filter E1 l1) * length (List.filter E2 l2))%nat.
Proof.
  induction l1 as [|a l1 IH]; [done|].
  simpl. rewrite List.filter_app, length_app, IH, filter_map_length. simpl.
  destruct (E1 a); simpl; [done|].
  assert (List.filter (fun _ : A => false) l2 = []) as ->
      by (clear; induction l2; done).
  reflexivity.
Qed.
End Counting.

Section Random.
Context `{G : Generator}.

(** One call of [classify] on a [RandomMinion] with labels. *)
Lemma RandomMinion_classify_run (labels : list scalar) (sid : Z) (w : world) :
  self w !! "labels" = Some (VList labels) ->
  labels <> [] ->
  exists x,
    labels !! (gen_randbelow (length labels) (rng w)).1 = Some x
    /\ RandomMinion_classify sid w
       = (Return (sid, VScalar x),
          World G (self w) (gen_randbelow (length labels) (rng w)).2).
Proof.
  intros Hlabels Hne.
  assert (0 < length labels)%nat as Hlen
      by (destruct labels; [done | simpl; lia]).
  pose proof (gen_randbelow_range _ (rng w) Hlen) as Hk.
  destruct (lookup_lt_is_Some_2 labels _ Hk) as [x Hx].
  exists x. split; [done|].
  unfold RandomMinion_classify, bind, getattr. rewrite Hlabels. simpl.
  unfold bind, choice. destruct labels as [|l0 labels]; [done|].
  destruct (gen_randbelow _ _) as [k s]. simpl in *. by rewrite Hx.
Qed.
End Random.

Section RandomTwice.
Context `{G : Generator}.

(** Two successive calls of [classify] on a [RandomMinion]: the second
    draws from the generator as the first left it. *)
Lemma RandomMinion_classify_twice (labels : list scalar) (s1 s2 : Z)
    (w : world) :
  self w !! "labels" = Some (VList labels) ->
  labels <> [] ->
  let n := length labels in
  let g1 := gen_randbelow n (rng w) in
  let g2 := gen_randbelow n g1.2 in
  exists x y,
    labels !! g1.1 = Some x /\ labels !! g2.1 = Some y
    /\ (r1 ← RandomMinion_classify s1;
        r2 ← RandomMinion_classify s2;
        ret (r1, r2)) w
       = (Return ((s1, VScalar x), (s2, VScalar y)), World G (self w) g2.2).
Proof.
  intros Hlabels Hne n g1 g2. subst n g1 g2.
  destruct (RandomMinion_classify_run labels s1 w Hlabels Hne)
    as (x & Hx & Hrun1).
  destruct (RandomMinion_classify_run labels s2
              (World G (self w) (gen_randbelow (length labels) (rng w)).2)
              Hlabels Hne) as (y & Hy & Hrun2).
  exists x, y. repeat split; [done..|].
  simpl in Hy, Hrun2. unfold bind. rewrite Hrun1, Hrun2. reflexivity.
Qed.
End RandomTwice.

(** On the tape generator, the raw draw [k] below [len(labels)] selects the
    label at position [k]. *)
Lemma RandomMinion_outcome (id : Z) (name : string) (labels : list scalar)
    (sid : Z) (k : nat) (x : scalar) :
  labels !! k = Some x ->
  ((new (RandomMinion_init id name labels) ;; RandomMinion_classify sid)
     (World tape_generator ∅ [Z.of_nat k])).1
  = Return (sid, VScalar x).
Proof.
  intros Hk. pose proof (lookup_lt_Some _ _ _ Hk) as Hlt.
  rewrite (bind_new _ _ _ (random_dict id name labels))
    by apply new_RandomMinion.
  cbn [rng].
  destruct (RandomMinion_classify_run (G := tape_generator) labels sid
              (World tape_generator (random_dict id name labels)
                 [Z.of_nat k])) as (x' & Hx' & ->).
  - apply random_dict_lookup.
  - intros ->. simpl in Hlt. lia.
  - simpl in Hx'. rewrite Z.mod_small, Nat2Z.id in Hx' by lia.
    simpl. congruence.
Qed.

Lemma RandomMinion_outcome2 (id : Z) (name : string) (labels : list scalar)
    (s1 s2 : Z) (k1 k2 : nat) (x y : scalar) :
  labels !! k1 = Some x -> labels !! k2 = Some y ->
  ((new (RandomMinion_init id name labels) ;;
    r1 ← RandomMinion_classify s1;
    r2 ← RandomMinion_classify s2;
    ret (r1, r2))
     (World tape_generator ∅ [Z.of_nat k1; Z.of_nat k2])).1
  = Return ((s1, VScalar x), (s2, VScalar y)).
Proof.
  intros Hk1 Hk2.
  pose proof (lookup_lt_Some _ _ _ Hk1) as Hlt1.
  pose proof (lookup_lt_Some _ _ _ Hk2) as Hlt2.
  rewrite (bind_new _ _ _ (random_dict id name labels))
    by apply new_RandomMinion.
  cbn [rng].
  destruct (RandomMinion_classify_twice (G := tape_generator) labels s1 s2
              (World tape_generator (random_dict id name labels)
                 [Z.of_nat k1; Z.of_nat k2])) as (x' & y' & Hx' & Hy' & ->).
  - apply random_dict_lookup.
  - intros ->. simpl in Hlt1. lia.
  - simpl in Hx', Hy'.
    rewrite Z.mod_small, Nat2Z.id in Hx' by lia.
    rewrite Z.mod_small, Nat2Z.id in Hy' by lia.
    simpl. congruence.
Qed.

Lemma RandomMinion_outcomes_eq (id : Z) (name : string)
    (labels : list scalar) (sid : Z) :
  RandomMinion_outcomes id name labels sid
  = map (fun x => Return (sid, VScalar x)) labels.
Proof.
  unfold RandomMinion_outcomes. apply map_seq_lookup.
  intros k x Hk. by apply RandomMinion_outcome.
Qed.

Lemma RandomMinion_outcomes2_eq (id : Z) (name : string)
    (labels : list scalar) (s1 s2 : Z) :
  RandomMinion_outcomes2 id name labels s1 s2
  = map (fun xy : scalar * scalar =>
           Return ((s1, VScalar xy.1), (s2, VScalar xy.2)))
        (list_prod labels labels).
Proof.
  unfold RandomMinion_outcomes2. apply map_prod_seq_lookup.
  intros k1 k2 x y Hk1 Hk2. by apply RandomMinion_outcome2.
Qed.

(** C6: on a [RandomMinion] constructed with a non-empty [labels],
    [classify(subject_id)] returns [(subject_id, x)] with [x] the element of
    [labels] at the position that [_randbelow(len(labels))] draws, so a
    member of [labels].  The draw is uniform: the [len(labels)] equally
    likely draws return the elements of [labels], each once, so each element
    has probability [1/len(labels)] and a set of labels the share of the
    elements it holds.  Calls are independent: a second call returns the
    element at the position of the second draw, the pairs of draws return the
    pairs of elements, each once, and the probability of a pair of events is
    the product of their probabilities. *)
Theorem RandomMinion_classify_uniform `{G : Generator}
    (id : Z) (name : string) (labels : list scalar) (s1 s2 : Z) (w : world) :
  labels <> [] ->
  let n := length labels in
  let g1 := gen_randbelow n (rng w) in
  let g2 := gen_randbelow n g1.2 in
  (exists x y,
      labels !! g1.1 = Some x /\ x ∈ labels
      /\ labels !! g2.1 = Some y /\ y ∈ labels
      /\ ((new (RandomMinion_init id name labels) ;;
           RandomMinion_classify s1) w).1
         = Return (s1, VScalar x)
      /\ ((new (RandomMinion_init id name labels) ;;
           r1 ← RandomMinion_classify s1;
           r2 ← RandomMinion_classify s2;
           ret (r1, r2)) w).1
         = Return ((s1, VScalar x), (s2, VScalar y)))
  /\ RandomMinion_outcomes id name labels s1
     = map (fun x => Return (s1, VScalar x)) labels
  /\ (forall P : scalar -> bool,
         prob (label_event P) (RandomMinion_outcomes id name labels s1)
         = Qmake (Z.of_nat (length (List.filter P labels))) (Pos.of_nat n))
  /\ (forall P : scalar -> bool,
         length (List.filter P labels) = 1%nat ->
         prob (label_event P) (RandomMinion_outcomes id name labels s1)
         = Qmake 1 (Pos.of_nat n))
  /\ RandomMinion_outcomes2 id name labels s1 s2
     = map (fun xy : scalar * scalar =>
              Return ((s1, VScalar xy.1), (s2, VScalar xy.2)))
           (list_prod labels labels)
  /\ (forall P1 P2 : scalar -> bool,
         prob (label_event2 P1 P2) (RandomMinion_outcomes2 id name labels s1 s2)
         = (prob (label_event P1) (RandomMinion_outcomes id name labels s1)
            * prob (label_event P2) (RandomMinion_outcomes id name labels s2))%Q).
Proof.
  intros Hne n g1 g2.
  assert (forall (P : scalar -> bool) (s : Z),
            prob (label_event P) (RandomMinion_outcomes id name labels s)
            = Qmake (Z.of_nat (length (List.filter P labels))) (Pos.of_nat n))
    as Hprob.
  { intros P s. unfold prob.
    by rewrite RandomMinion_outcomes_eq, length_map, filter_map_length. }
  split; [|split; [|split; [|split; [|split]]]].
  - pose proof (new_RandomMinion id name labels w) as Hnew.
    destruct (RandomMinion_classify_twice labels s1 s2
                (World G (random_dict id name labels) (rng w)))
      as (x & y & Hx & Hy & Htwice);
      [apply random_dict_lookup | done |].
    destruct (RandomMinion_classify_run labels s1
                (World G (random_dict id name labels) (rng w)))
      as (x' & Hx' & Hone);
      [apply random_dict_lookup | done |].
    simpl in Hx, Hy, Hx'. assert (x' = x) as -> by congruence.
    exists x, y. split; [done|]. split; [by eapply list_elem_of_lookup_2|].
    split; [done|]. split; [by eapply list_elem_of_lookup_2|].
    rewrite !(bind_new _ _ _ _ Hnew), Hone, Htwice. done.
  - apply RandomMinion_outcomes_eq.
  - intros P. apply Hprob.
  - intros P HP. by rewrite Hprob, HP.
  - apply RandomMinion_outcomes2_eq.
  - intros P1 P2. rewrite !Hprob. unfold prob.
    rewrite RandomMinion_outcomes2_eq, length_map, filter_map_length.
    rewrite length_prod. simpl. rewrite filter_prod_length.
    assert (n <> 0)%nat as Hn by (subst n; destruct labels; done).
    fold n. unfold Qmult; simpl.
    by rewrite Nat2Z.inj_mul, Nat2Pos.inj_mul.
Qed.

Lemma RandomMinion_classify_uniform_witness :
  let labels := [SInt 0; SInt 1] in
  prob (label_event (fun x => py_eq x (SInt 1)))
       (RandomMinion_outcomes 4 "r" labels 1)
  = Qmake 1 2
  /\ RandomMinion_outcomes 4 "r" labels 1
     = [Return (1, VScalar (SInt 0)); Return (1, VScalar (SInt 1))].
Proof.
  intros labels.
  pose proof (@RandomMinion_classify_uniform tape_generator 4 "r" labels 1 1
                (World tape_generator ∅ [5; 8]) ltac:(discriminate))
    as (_ & Hout & _ & Hp & _).
  split.
  - apply (Hp (fun x => py_eq x (SInt 1))). reflexivity.
  - exact Hout.
Defined.

Lemma NoisyMinion_classify_channel_witness :
  ((new (NoisyMinion_init 5 "n" [1 # 4; 3 # 4]%Q) ;; NoisyMinion_classify 7 0)
     (World tape_generator ∅ [2 ^ 52])).1
  = Return (7, VScalar (SBool true))
  /\ py_eq (SBool true) (SInt 1) = true.
Proof.
  pose proof (@NoisyMinion_classify_channel tape_generator 5 "n"
                (1 # 4)%Q (3 # 4)%Q 7 0 (World tape_generator ∅ [2 ^ 52])
                ltac:(split; discriminate) ltac:(split; discriminate)
                (or_introl eq_refl))
    as (_ & p & Hp & _ & Hflip).
  injection Hp as <-.
  destruct Hflip as (f & Hr & -> & Heq); [discriminate|].
  split; [exact Hr | exact Heq].
Defined.

Lemma NoisyMinion_ones_is_expert_witness :
  ((new (NoisyMinion_init 5 "n" [1; 1]%Q) ;; NoisyMinion_classify 7 1)
     (World tape_generator ∅ [2 ^ 53 - 1])).1
  = Return (7, VScalar (SInt 1)).
Proof.
  apply (@NoisyMinion_ones_is_expert tape_generator 5 "n" 7 1
           (World tape_generator ∅ [2 ^ 53 - 1]) (or_intror eq_refl)).
Defined.

(** ** More on the noisy classifier *)

Lemma index_is_Some {A : Type} (a : list A) (i : Z) :
  is_Some (index a i) <-> - Z.of_nat (length a) <= i < Z.of_nat (length a).
Proof.
  unfold index.
  destruct (Z.leb_spec 0 i), (Z.ltb_spec i (Z.of_nat (length a)));
    destruct (Z.leb_spec (- Z.of_nat (length a)) i), (Z.ltb_spec i 0);
    simpl;
    first [ rewrite lookup_lt_is_Some; lia
          | split; [intros [? ?]; discriminate | lia] ].
Qed.

Lemma index_None {A : Type} (a : list A) (i : Z) :
  index a i = None <-> i < - Z.of_nat (length a) \/ Z.of_nat (length a) <= i.
Proof.
  rewrite eq_None_not_Some, index_is_Some. lia.
Qed.

Section NoisyMore.
Context `{G : Generator}.

(** A call on a receiver that holds a matrix: the draw is made first, then
    the matrix is indexed. *)
Lemma NoisyMinion_classify_on (cm : list Q) (sid gold : Z) (w : world) :
  self w !! "confusion_matrix" = Some (VArray cm) ->
  NoisyMinion_classify sid gold w
  = (match index cm gold with
     | Some p =>
         Return (sid,
                 if Qltb (gen_random (rng w)).1 p
                 then VScalar (SInt gold)
                 else VScalar (SBool (gold =? 0)))
     | None => Raise IndexError
     end,
     World G (self w) (gen_random (rng w)).2).
Proof.
  intros Hcm. unfold NoisyMinion_classify, bind, random_random.
  destruct (gen_random (rng w)) as [u s]; simpl.
  unfold getattr; simpl. rewrite Hcm; simpl.
  destruct (index cm gold) as [p|]; [|done].
  unfold ret; simpl. by destruct (Qltb u p).
Qed.

Lemma NoisyMinion_new_classify (id : Z) (name : string) (cm : list Q)
    (sid gold : Z) (w : world) :
  any_lt cm 0 && any_gt cm 1 = false ->
  (new (NoisyMinion_init id name cm) ;; NoisyMinion_classify sid gold) w
  = (match index cm gold with
     | Some p =>
         Return (sid,
                 if Qltb (gen_random (rng w)).1 p
                 then VScalar (SInt gold)
                 else VScalar (SBool (gold =? 0)))
     | None => Raise IndexError
     end,
     World G (noisy_dict id name cm) (gen_random (rng w)).2).
Proof.
  intros Hok.
  rewrite (bind_new _ _ _ (noisy_dict id name cm))
    by (by rewrite new_NoisyMinion, Hok).
  rewrite (NoisyMinion_classify_on cm) by apply noisy_dict_lookup.
  reflexivity.
Qed.

Lemma calls_NoisyMinion_classify (cm : list Q) (p : Q) (sid gold : Z) (n : nat) :
  index cm gold = Some p ->
  forall w : world,
    self w !! "confusion_matrix" = Some (VArray cm) ->
    calls n (NoisyMinion_classify sid gold) w
    = (Return (map (fun u : Q =>
                      (sid,
                       if Qltb u p
                       then VScalar (SInt gold)
                       else VScalar (SBool (gold =? 0))))
                 (random_draws n (rng w)).1),
       World G (self w) (random_draws n (rng w)).2).
Proof.
  intros Hp. induction n as [|n IH]; intros w Hcm.
  - by destruct w.
  - cbn [calls]. unfold bind at 1.
    rewrite (NoisyMinion_classify_on cm) by done. rewrite Hp.
    unfold bind. rewrite IH by done. reflexivity.
Qed.
End NoisyMore.

(** X1: on a [NoisyMinion] that the constructor accepted, whatever the length
    of its matrix, [classify(subject_id, gold_label)] returns exactly when
    [-len <= gold_label < len], [len] being the length of the matrix, and
    raises [IndexError] otherwise.  In both cases one draw of
    [random.random()] has been consumed and the attributes are as the
    constructor left them. *)
Theorem NoisyMinion_classify_index_bounds `{G : Generator}
    (id : Z) (name : string) (cm : list Q) (subject_id gold_label : Z)
    (w : world) :
  any_lt cm 0 && any_gt cm 1 = false ->
  let r := (new (NoisyMinion_init id name cm) ;;
            NoisyMinion_classify subject_id gold_label) w in
  let len := Z.of_nat (length cm) in
  ((exists label, r.1 = Return (subject_id, label))
   <-> - len <= gold_label < len)
  /\ (r.1 = Raise IndexError <-> gold_label < - len \/ len <= gold_label)
  /\ rng r.2 = (gen_random (rng w)).2
  /\ self r.2 = noisy_dict id name cm.
Proof.
  intros Hok r len. subst r len. rewrite NoisyMinion_new_classify by done.
  simpl. rewrite <- index_is_Some, <- index_None.
  destruct (index cm gold_label) as [p|]; repeat split; try done;
    first [by eexists | by intros [? ?]].
Qed.

Lemma NoisyMinion_classify_index_bounds_witness :
  ((new (NoisyMinion_init 5 "n" [1 # 4; 3 # 4]%Q) ;; NoisyMinion_classify 7 2)
     (World tape_generator ∅ [2 ^ 52; 9])).1 = Raise IndexError
  /\ rng ((new (NoisyMinion_init 5 "n" [1 # 4; 3 # 4]%Q) ;;
           NoisyMinion_classify 7 2)
            (World tape_generator ∅ [2 ^ 52; 9])).2 = [9].
Proof.
  pose proof (@NoisyMinion_classify_index_bounds tape_generator 5 "n"
                [1 # 4; 3 # 4]%Q 7 2 (World tape_generator ∅ [2 ^ 52; 9])
                eq_refl) as (_ & Hraise & Hrng & _).
  split.
  - apply Hraise. right. simpl. lia.
  - exact Hrng.
Defined.

(** X2: for every index that the matrix has, negative ones included,
    [classify] returns the gold label as it was given when the draw is below
    the indexed element, and otherwise the value of [gold_label == 0]: [True]
    for the gold label 0 and [False], which is equal to 0, for every other
    gold label. *)
Theorem NoisyMinion_classify_any_index `{G : Generator}
    (id : Z) (name : string) (cm : list Q) (p : Q)
    (subject_id gold_label : Z) (w : world) :
  any_lt cm 0 && any_gt cm 1 = false ->
  index cm gold_label = Some p ->
  let u := (gen_random (rng w)).1 in
  let r := ((new (NoisyMinion_init id name cm) ;;
             NoisyMinion_classify subject_id gold_label) w).1 in
  ((u < p)%Q -> r = Return (subject_id, VScalar (SInt gold_label)))
  /\ ((p <= u)%Q ->
      r = Return (subject_id, VScalar (SBool (gold_label =? 0)))
      /\ (gold_label <> 0 ->
          r = Return (subject_id, VScalar (SBool false))
          /\ py_eq (SBool false) (SInt 0) = true)).
Proof.
  intros Hok Hp u r. subst u r. rewrite NoisyMinion_new_classify by done.
  rewrite Hp. simpl. split.
  - intros Hlt. apply Qltb_lt in Hlt. by rewrite Hlt.
  - intros Hge. apply Qltb_ge in Hge. rewrite Hge. split; [done|].
    intros Hne. apply Z.eqb_neq in Hne. by rewrite Hne.
Qed.

Lemma NoisyMinion_classify_any_index_witness :
  ((new (NoisyMinion_init 5 "n" [1 # 4; 1 # 3]%Q) ;;
    NoisyMinion_classify 7 (-1)) (World tape_generator ∅ [2 ^ 52])).1
  = Return (7, VScalar (SBool false)).
Proof.
  pose proof (@NoisyMinion_classify_any_index tape_generator 5 "n"
                [1 # 4; 1 # 3]%Q (1 # 3)%Q 7 (-1)
                (World tape_generator ∅ [2 ^ 52]) eq_refl eq_refl)
    as [_ Hflip].
  apply Hflip; discriminate.
Defined.

(** Elements at or beyond the ends of [[0,1]] decide the label. *)
Lemma noisy_saturated `{G : Generator}
    (id : Z) (name : string) (cm : list Q) (p : Q)
    (subject_id gold_label : Z) (w : world) :
  any_lt cm 0 && any_gt cm 1 = false ->
  index cm gold_label = Some p ->
  let r := ((new (NoisyMinion_init id name cm) ;;
             NoisyMinion_classify subject_id gold_label) w).1 in
  ((1 <= p)%Q -> r = Return (subject_id, VScalar (SInt gold_label)))
  /\ ((p <= 0)%Q ->
      r = Return (subject_id, VScalar (SBool (gold_label =? 0)))).
Proof.
  intros Hok Hp r. subst r. rewrite NoisyMinion_new_classify by done.
  rewrite Hp. simpl.
  destruct (gen_random_range (rng w)) as [Hlo Hhi]. split.
  - intros Hone.
    assert (Qltb (gen_random (rng w)).1 p = true) as ->; [|done].
    apply Qltb_lt. by eapply Qlt_le_trans.
  - intros Hzero.
    assert (Qltb (gen_random (rng w)).1 p = false) as ->; [|done].
    apply Qltb_ge. by eapply Qle_trans.
Qed.

(** X3: an element of the matrix that is 1 or more makes [classify] return
    the gold label on every draw, and an element that is 0 or less makes it
    return the flipped label on every draw.  This covers the elements outside
    [[0,1]] that the constructor lets through: they act as 1 and as 0. *)
Theorem NoisyMinion_saturated_elements `{G : Generator}
    (id : Z) (name : string) (cm : list Q) (p : Q)
    (subject_id gold_label : Z) (w : world) :
  any_lt cm 0 && any_gt cm 1 = false ->
  index cm gold_label = Some p ->
  let r := ((new (NoisyMinion_init id name cm) ;;
             NoisyMinion_classify subject_id gold_label) w).1 in
  ((1 <= p)%Q -> r = Return (subject_id, VScalar (SInt gold_label)))
  /\ ((p <= 0)%Q ->
      r = Return (subject_id, VScalar (SBool (gold_label =? 0)))).
Proof. apply noisy_saturated. Qed.

Lemma NoisyMinion_saturated_elements_witness :
  ((new (NoisyMinion_init 5 "n" [3 # 2; 1 # 5]%Q) ;; NoisyMinion_classify 7 0)
     (World tape_generator ∅ [2 ^ 53 - 1])).1
  = Return (7, VScalar (SInt 0)).
Proof.
  pose proof (@NoisyMinion_saturated_elements tape_generator 5 "n"
                [3 # 2; 1 # 5]%Q (3 # 2)%Q 7 0
                (World tape_generator ∅ [2 ^ 53 - 1]) eq_refl eq_refl)
    as [Hkeep _].
  apply Hkeep. discriminate.
Defined.

(** X4: the classifiers that the docstring of [NoisyMinion] names.  With the
    matrix [[0, 0]] every gold label of [{0,1}] is flipped, on every draw;
    with [[1, 0]] the label returned is always equal to 0, and with [[0, 1]]
    it is always equal to 1, whatever the gold label. *)
Theorem NoisyMinion_obtuse_and_constant `{G : Generator}
    (id : Z) (name : string) (subject_id gold_label : Z) (w : world) :
  gold_label = 0 \/ gold_label = 1 ->
  (exists f : scalar,
      ((new (NoisyMinion_init id name [0; 0]%Q) ;;
        NoisyMinion_classify subject_id gold_label) w).1
      = Return (subject_id, VScalar f)
      /\ py_eq f (SInt (1 - gold_label)) = true)
  /\ (exists f : scalar,
         ((new (NoisyMinion_init id name [1; 0]%Q) ;;
           NoisyMinion_classify subject_id gold_label) w).1
         = Return (subject_id, VScalar f)
         /\ py_eq f (SInt 0) = true)
  /\ (exists f : scalar,
         ((new (NoisyMinion_init id name [0; 1]%Q) ;;
           NoisyMinion_classify subject_id gold_label) w).1
         = Return (subject_id, VScalar f)
         /\ py_eq f (SInt 1) = true).
Proof.
  intros Hgold.
  assert ((0 <= 0)%Q /\ (1 <= 1)%Q) as [H00 H11] by (split; apply Qle_refl).
  pose proof (fun cm p Hok Hp =>
                noisy_saturated id name cm p subject_id gold_label w Hok Hp)
    as Hsat.
  cbv zeta in Hsat.
  split; [|split].
  - destruct (Hsat [0; 0]%Q 0%Q eq_refl) as [_ Hflip];
      [by destruct Hgold as [-> | ->]|].
    rewrite (Hflip H00). eexists; split; [done|].
    by destruct Hgold as [-> | ->].
  - destruct Hgold as [-> | ->].
    + destruct (Hsat [1; 0]%Q 1%Q eq_refl eq_refl) as [Hkeep _].
      rewrite (Hkeep H11). by eexists.
    + destruct (Hsat [1; 0]%Q 0%Q eq_refl eq_refl) as [_ Hflip].
      rewrite (Hflip H00). by eexists.
  - destruct Hgold as [-> | ->].
    + destruct (Hsat [0; 1]%Q 0%Q eq_refl eq_refl) as [_ Hflip].
      rewrite (Hflip H00). by eexists.
    + destruct (Hsat [0; 1]%Q 1%Q eq_refl eq_refl) as [Hkeep _].
      rewrite (Hkeep H11). by eexists.
Qed.

Lemma NoisyMinion_obtuse_and_constant_witness :
  exists f : scalar,
    ((new (NoisyMinion_init 5 "n" [0; 0]%Q) ;; NoisyMinion_classify 7 1)
       (World tape_generator ∅ [0])).1
    = Return (7, VScalar f)
    /\ py_eq f (SInt (1 - 1)) = true.
Proof.
  apply (@NoisyMinion_obtuse_and_constant tape_generator 5 "n" 7 1
           (World tape_generator ∅ [0]) (or_intror eq_refl)).
Defined.

(** X5: [n] successive calls of [classify] on an accepted [NoisyMinion], for
    a gold label that indexes the element [p]: the call number [i] returns
    the gold label when the draw number [i] of [random.random()] is below
    [p], and the flipped label otherwise; the calls consume exactly [n] draws
    and leave the attributes as the constructor set them. *)
Theorem NoisyMinion_calls `{G : Generator}
    (id : Z) (name : string) (cm : list Q) (p : Q)
    (subject_id gold_label : Z) (n : nat) (w : world) :
  any_lt cm 0 && any_gt cm 1 = false ->
  index cm gold_label = Some p ->
  (new (NoisyMinion_init id name cm) ;;
   calls n (NoisyMinion_classify subject_id gold_label)) w
  = (Return (map (fun u : Q =>
                    (subject_id,
                     if Qltb u p
                     then VScalar (SInt gold_label)
                     else VScalar (SBool (gold_label =? 0))))
               (random_draws n (rng w)).1),
     World G (noisy_dict id name cm) (random_draws n (rng w)).2).
Proof.
  intros Hok Hp.
  rewrite (bind_new _ _ _ (noisy_dict id name cm))
    by (by rewrite new_NoisyMinion, Hok).
  rewrite (calls_NoisyMinion_classify cm p) by (done || apply noisy_dict_lookup).
  reflexivity.
Qed.

Lemma NoisyMinion_calls_witness :
  ((new (NoisyMinion_init 5 "n" [1 # 4; 3 # 4]%Q) ;;
    calls 3 (NoisyMinion_classify 7 1))
     (World tape_generator ∅ [0; 2 ^ 53 - 1; 2 ^ 52; 11])).1
  = Return [(7, VScalar (SInt 1)); (7, VScalar (SBool false));
            (7, VScalar (SInt 1))].
Proof.
  rewrite (@NoisyMinion_calls tape_generator 5 "n" [1 # 4; 3 # 4]%Q (3 # 4)%Q
             7 1 3 (World tape_generator ∅ [0; 2 ^ 53 - 1; 2 ^ 52; 11])
             eq_refl eq_refl).
  reflexivity.
Defined.

(** ** More on the random classifier *)

Section RandomMore.
Context `{G : Generator}.

Lemma randbelow_draws_spec (m n : nat) (s : gen_state) :
  (0 < m)%nat ->
  length (randbelow_draws m n s).1 = n
  /\ Forall (fun k => (k < m)%nat) (randbelow_draws m n s).1.
Proof.
  intros Hm. revert s. induction n as [|n IH]; intros s; [done|].
  cbn [randbelow_draws]. simpl. destruct (IH (gen_randbelow m s).2) as [Hlen Hall].
  split; [by rewrite Hlen|].
  apply Forall_cons_2; [by apply gen_randbelow_range | done].
Qed.

Lemma calls_RandomMinion_classify (labels : list scalar) (sid : Z) (n : nat) :
  labels <> [] ->
  forall w : world,
    self w !! "labels" = Some (VList labels) ->
    calls n (RandomMinion_classify sid) w
    = (Return (map (fun k : nat => (sid, VScalar (nth k labels SNone)))
                 (randbelow_draws (length labels) n (rng w)).1),
       World G (self w) (randbelow_draws (length labels) n (rng w)).2).
Proof.
  intros Hne. induction n as [|n IH]; intros w Hlabels.
  - by destruct w.
  - cbn [calls]. unfold bind at 1.
    destruct (RandomMinion_classify_run labels sid w Hlabels Hne)
      as (x & Hx & ->).
    unfold bind. rewrite IH by done. cbn [randbelow_draws]. simpl.
    by rewrite (nth_lookup_Some _ _ SNone _ Hx).
Qed.

Lemma preserves_rng_ret {A : Type} (a : A) : preserves_rng (ret a).
Proof. by intros w. Qed.

Lemma preserves_rng_raise {A : Type} (e : exn) : preserves_rng (@raise G A e).
Proof. by intros w. Qed.

Lemma preserves_rng_getattr (name : string) : preserves_rng (getattr name).
Proof. intros w. unfold getattr. by destruct (self w !! name). Qed.

Lemma preserves_rng_setattr (name : string) (v : value) :
  preserves_rng (setattr name v).
Proof. by intros w. Qed.

Lemma preserves_rng_bind {A B : Type} (m : M A) (k : A -> M B) :
  preserves_rng m -> (forall a, preserves_rng (k a)) ->
  preserves_rng (bind m k).
Proof.
  intros Hm Hk w. unfold bind. specialize (Hm w).
  destruct (m w) as [[a|e] w']; simpl in *; [|done].
  by rewrite Hk.
Qed.

Lemma preserves_rng_new (init : M unit) :
  preserves_rng init -> preserves_rng (new init).
Proof. intros Hinit w. unfold new. by rewrite Hinit. Qed.

Lemma preserves_rng_calls {A : Type} (n : nat) (m : M A) :
  preserves_rng m -> preserves_rng (calls n m).
Proof.
  intros Hm. induction n as [|n IH]; simpl; [apply preserves_rng_ret|].
  apply preserves_rng_bind; [done|]. intros r.
  apply preserves_rng_bind; [done|]. intros rs. apply preserves_rng_ret.
Qed.

Lemma preserves_rng_minion_init (id : Z) (name : string) :
  preserves_rng (minion_init id name).
Proof. by intros w. Qed.
End RandomMore.

(** X6: [n] successive calls of [classify] on a [RandomMinion] with a
    non-empty [labels] return, in order, the elements of [labels] at the
    positions that [n] successive draws of [_randbelow(len(labels))] give,
    each of them a position of [labels]; the calls consume exactly these [n]
    draws and leave the attributes as the constructor set them. *)
Theorem RandomMinion_calls `{G : Generator}
    (id : Z) (name : string) (labels : list scalar) (subject_id : Z)
    (n : nat) (w : world) :
  labels <> [] ->
  let d := randbelow_draws (length labels) n (rng w) in
  (new (RandomMinion_init id name labels) ;;
   calls n (RandomMinion_classify subject_id)) w
  = (Return (map (fun k : nat => (subject_id, VScalar (nth k labels SNone)))
               d.1),
     World G (random_dict id name labels) d.2)
  /\ length d.1 = n
  /\ Forall (fun k => exists x, labels !! k = Some x /\ nth k labels SNone = x)
       d.1.
Proof.
  intros Hne d. subst d.
  assert (0 < length labels)%nat as Hlen
      by (destruct labels; [done | simpl; lia]).
  destruct (randbelow_draws_spec (length labels) n (rng w) Hlen)
    as [Hn Hall].
  split; [|split; [done|]].
  - rewrite (bind_new _ _ _ (random_dict id name labels))
      by apply new_RandomMinion.
    rewrite (calls_RandomMinion_classify labels)
      by (done || apply random_dict_lookup).
    reflexivity.
  - eapply Forall_impl; [exact Hall|]. intros k Hk. simpl in Hk.
    destruct (lookup_lt_is_Some_2 labels k Hk) as [x Hx].
    exists x. split; [done|]. by apply nth_lookup_Some.
Qed.

Lemma RandomMinion_calls_witness :
  ((new (RandomMinion_init 4 "r" [SInt 0; SInt 1; SInt 2]) ;;
    calls 3 (RandomMinion_classify 9))
     (World tape_generator ∅ [5; 3; 7; 1])).1
  = Return [(9, VScalar (SInt 2)); (9, VScalar (SInt 0));
            (9, VScalar (SInt 1))].
Proof.
  pose proof (@RandomMinion_calls tape_generator 4 "r"
                [SInt 0; SInt 1; SInt 2] 9 3
                (World tape_generator ∅ [5; 3; 7; 1]) ltac:(discriminate))
    as [Hrun _].
  rewrite Hrun. reflexivity.
Defined.

(** X7: the constructor of [RandomMinion] accepts an empty [labels]; every
    [classify] on such an object raises [IndexError], without a draw from
    the generator and without a change to the object, and so does any
    sequence of one or more calls. *)
Theorem RandomMinion_empty_labels `{G : Generator}
    (id : Z) (name : string) (subject_id : Z) (n : nat) (w : world) :
  new (RandomMinion_init id name []) w
  = (Return tt, World G (random_dict id name []) (rng w))
  /\ (new (RandomMinion_init id name []) ;; RandomMinion_classify subject_id)
       w
     = (Raise IndexError, World G (random_dict id name []) (rng w))
  /\ (new (RandomMinion_init id name []) ;;
      calls (S n) (RandomMinion_classify subject_id)) w
     = (Raise IndexError, World G (random_dict id name []) (rng w)).
Proof. repeat split. Qed.

(** X8: a [RandomMinion] with the single label [L] returns
    [(subject_id, L)] at every call, whatever the generator draws: the result
    of an [AllTheSingleLabelsMinion] constructed with [L]. *)
Theorem RandomMinion_singleton `{G : Generator}
    (id : Z) (name : string) (L : scalar) (subject_id : Z) (w : world) :
  ((new (RandomMinion_init id name [L]) ;;
    RandomMinion_classify subject_id) w).1
  = Return (subject_id, VScalar L)
  /\ ((new (RandomMinion_init id name [L]) ;;
       RandomMinion_classify subject_id) w).1
     = ((new (AllTheSingleLabelsMinion_init id name (VScalar L)) ;;
         AllTheSingleLabelsMinion_classify subject_id) w).1.
Proof.
  assert (((new (RandomMinion_init id name [L]) ;;
            RandomMinion_classify subject_id) w).1
          = Return (subject_id, VScalar L)) as Hrun; [|by rewrite Hrun].
  rewrite (bind_new _ _ _ (random_dict id name [L])) by apply new_RandomMinion.
  destruct (RandomMinion_classify_run [L] subject_id
              (World G (random_dict id name [L]) (rng w)))
    as (x & Hx & ->); [apply random_dict_lookup | done |].
  simpl in Hx.
  pose proof (gen_randbelow_range 1 (rng w) ltac:(lia)) as Hk.
  destruct ((gen_randbelow 1 (rng w)).1) as [|k]; [|lia].
  simpl in Hx. by injection Hx as ->.
Qed.

(** ** What never draws from the generator, and missing attributes *)

(** X9: no constructor draws from the random generator, whether it returns
    or raises, and neither does any number of calls of [classify] of the
    abstract class, of an [ExpertMinion] or of an
    [AllTheSingleLabelsMinion], on any receiver: the generator is in the
    state it was in before. *)
Theorem deterministic_code_keeps_generator `{G : Generator}
    (id : Z) (name : string) (label gold_label : value)
    (labels : list scalar) (cm : list Q) (subject_id : Z) (n : nat)
    (w : world) :
  rng (new (minion_init id name) w).2 = rng w
  /\ rng (new (ExpertMinion_init id name) w).2 = rng w
  /\ rng (new (AllTheSingleLabelsMinion_init id name label) w).2 = rng w
  /\ rng (new (RandomMinion_init id name labels) w).2 = rng w
  /\ rng (new (NoisyMinion_init id name cm) w).2 = rng w
  /\ rng (calls n (minion_classify subject_id) w).2 = rng w
  /\ rng (calls n (ExpertMinion_classify subject_id gold_label) w).2 = rng w
  /\ rng (calls n (AllTheSingleLabelsMinion_classify subject_id) w).2 = rng w
  /\ rng ((new (AllTheSingleLabelsMinion_init id name label) ;;
           calls n (AllTheSingleLabelsMinion_classify subject_id)) w).2
     = rng w.
Proof.
  assert (preserves_rng (AllTheSingleLabelsMinion_classify subject_id))
    as Hsingle.
  { apply preserves_rng_bind; [apply preserves_rng_getattr|].
    intros v. apply preserves_rng_ret. }
  repeat split.
  - by rewrite new_NoisyMinion; destruct (_ && _).
  - apply preserves_rng_calls, preserves_rng_raise.
  - apply preserves_rng_calls, preserves_rng_ret.
  - by apply preserves_rng_calls.
  - apply preserves_rng_bind; [by intros w'|].
    intros _. by apply preserves_rng_calls.
Qed.



(** ** The script of [test.py] *)

Lemma index_nonneg {A : Type} (a : list A) (k : nat) (x : A) :
  a !! k = Some x -> index a (Z.of_nat k) = Some x.
Proof.
  intros Hk. pose proof (lookup_lt_Some _ _ _ Hk) as Hlt.
  unfold index.
  destruct (Z.leb_spec 0 (Z.of_nat k)); [|lia].
  destruct (Z.ltb_spec (Z.of_nat k) (Z.of_nat (length a))); [|lia].
  simpl. by rewrite Nat2Z.id.
Qed.

Lemma index_beyond {A : Type} (a : list A) (k : nat) :
  (length a <= k)%nat -> index a (Z.of_nat k) = None.
Proof. intros Hk. apply index_None. lia. Qed.

Lemma existsb_drawn (f : nat -> scalar) (sid z : Z) (ks : list nat) :
  existsb (fun v => label_eqb v z)
    (map snd (map (fun k : nat => (sid, VScalar (f k))) ks))
  = existsb (fun l => py_eq l (SInt z)) (map f ks).
Proof. induction ks as [|k ks IH]; [done|]. simpl. by rewrite IH. Qed.

Section ScriptRuns.
Context `{G : Generator}.

Lemma names_getitem_run (names : list string) (i : Z) (s : string) :
  0 <= i -> names !! Z.to_nat i = Some s -> names_getitem names i = ret s.
Proof.
  intros Hi Hk. unfold names_getitem.
  rewrite <- (Z2Nat.id i) by done. by rewrite (index_nonneg _ _ _ Hk).
Qed.

Lemma names_getitem_beyond (names : list string) (i : Z) :
  Z.of_nat (length names) <= i ->
  names_getitem names i = raise IndexError.
Proof.
  intros Hi. unfold names_getitem.
  assert (index names i = None) as -> by (apply index_None; lia). done.
Qed.

(** The script up to its loop: the three deterministic assertions hold and
    the loop starts on the [RandomMinion]. *)
Lemma main_to_loop (n0 n1 n2 n3 n4 : string) (rest : list string)
    (labels : list scalar) (w : world) :
  main (n0 :: n1 :: n2 :: n3 :: n4 :: rest) labels w
  = exec (calls 100 (RandomMinion_classify 1))
      (fun rs =>
         let x := map snd rs in
         assert (existsb (fun v => label_eqb v 0) x)
           (assert (existsb (fun v => label_eqb v 1) x) finish))
      (World G (random_dict 4 n4 labels) (rng w)).
Proof.
  unfold main.
  set (names := n0 :: n1 :: n2 :: n3 :: n4 :: rest).
  remember (calls 100 (RandomMinion_classify 1)) as loop eqn:Hloop.
  rewrite (names_getitem_run names 0 n0) by done.
  rewrite (names_getitem_run names 1 n1) by done.
  rewrite (names_getitem_run names 2 n2) by done.
  rewrite (names_getitem_run names 3 n3) by done.
  rewrite (names_getitem_run names 4 n4) by done.
  reflexivity.
Qed.
End ScriptRuns.

Section ScriptOutcome.
Context `{G : Generator}.

(** The script from its loop on: the labels drawn decide the outcome. *)
Lemma main_on_names (n0 n1 n2 n3 n4 : string) (rest : list string)
    (labels : list scalar) (w : world) :
  labels <> [] ->
  main (n0 :: n1 :: n2 :: n3 :: n4 :: rest) labels w
  = (if existsb (fun l => py_eq l (SInt 0))
          (map (fun k : nat => nth k labels SNone)
             (randbelow_draws (length labels) 100 (rng w)).1)
        && existsb (fun l => py_eq l (SInt 1))
             (map (fun k : nat => nth k labels SNone)
                (randbelow_draws (length labels) 100 (rng w)).1)
     then Passed else AssertionError,
     World G (random_dict 4 n4 labels)
       (randbelow_draws (length labels) 100 (rng w)).2).
Proof.
  intros Hne. rewrite main_to_loop. unfold exec.
  rewrite (calls_RandomMinion_classify labels)
    by (done || apply random_dict_lookup).
  cbv zeta. rewrite !existsb_drawn. unfold assert, finish. cbn [rng self].
  by destruct (existsb _ _), (existsb _ _).
Qed.

Lemma main_no_label (n0 n1 n2 n3 n4 : string) (rest : list string)
    (w : world) :
  main (n0 :: n1 :: n2 :: n3 :: n4 :: rest) [] w
  = (Uncaught IndexError, World G (random_dict 4 n4 []) (rng w)).
Proof. rewrite main_to_loop. reflexivity. Qed.

Lemma main_few_names (names : list string) (labels : list scalar)
    (w : world) :
  (length names < 5)%nat -> (main names labels w).1 = Uncaught IndexError.
Proof.
  intros Hlen.
  destruct names as [|n0 [|n1 [|n2 [|n3 [|n4 rest]]]]];
    [reflexivity.. | simpl in Hlen; lia].
Qed.
End ScriptOutcome.

(** X11: with at least five names and a non-empty [labels] in the
    configuration, [main()] raises nothing but possibly [AssertionError]: its
    first three assertions always hold, its loop makes exactly 100 draws of
    [_randbelow(len(labels))], and it reaches its end exactly when both a
    label equal to 0 and a label equal to 1 are among the 100 labels drawn;
    otherwise one of its two last assertions fails. *)
Theorem main_passes_iff_both_drawn `{G : Generator}
    (names : list string) (labels : list scalar) (w : world) :
  (5 <= length names)%nat ->
  labels <> [] ->
  let d := randbelow_draws (length labels) 100 (rng w) in
  let x := map (fun k : nat => nth k labels SNone) d.1 in
  exists n4,
    names !! 4%nat = Some n4
    /\ main names labels w
       = (if existsb (fun l => py_eq l (SInt 0)) x
             && existsb (fun l => py_eq l (SInt 1)) x
          then Passed else AssertionError,
          World G (random_dict 4 n4 labels) d.2).
Proof.
  intros Hlen Hne d x. subst d x.
  destruct names as [|n0 [|n1 [|n2 [|n3 [|n4 rest]]]]];
    try (simpl in Hlen; lia).
  exists n4. split; [done|]. by apply main_on_names.
Qed.

Lemma main_passes_iff_both_drawn_witness :
  (main ["a"; "b"; "c"; "d"; "e"] [SInt 0; SInt 1]
     (World tape_generator ∅ [1; 0])).1 = Passed.
Proof.
  pose proof (@main_passes_iff_both_drawn tape_generator
                ["a"; "b"; "c"; "d"; "e"] [SInt 0; SInt 1]
                (World tape_generator ∅ [1; 0])
                ltac:(simpl; lia) ltac:(discriminate))
    as (n4 & _ & Hmain).
  rewrite Hmain. reflexivity.
Defined.

(** X12: when the configuration has fewer than five names, or has no label,
    [main()] ends with an uncaught [IndexError], from [names[i]] or from
    [random.choice]: the [try] of [main] only catches
    [NotImplementedError]. *)
Theorem main_uncaught_IndexError `{G : Generator}
    (names : list string) (labels : list scalar) (w : world) :
  (length names < 5)%nat \/ labels = [] ->
  (main names labels w).1 = Uncaught IndexError.
Proof.
  intros [Hlen | ->]; [by apply main_few_names|].
  destruct (decide (length names < 5)%nat) as [Hlen|Hlen];
    [by apply main_few_names|].
  destruct names as [|n0 [|n1 [|n2 [|n3 [|n4 rest]]]]];
    try (simpl in Hlen; lia).
  by rewrite main_no_label.
Qed.

Lemma main_uncaught_IndexError_witness :
  (main ["a"; "b"; "c"; "d"] [SInt 0; SInt 1]
     (World tape_generator ∅ [1; 0])).1 = Uncaught IndexError.
Proof.
  apply (@main_uncaught_IndexError tape_generator ["a"; "b"; "c"; "d"]
           [SInt 0; SInt 1] (World tape_generator ∅ [1; 0])).
  left. simpl. lia.
Defined.

(** ** How often the script fails *)

Lemma tapes_elem (n : nat) (t : list Z) :
  In t (tapes n) -> length t = n /\ Forall (fun r => r = 0 \/ r = 1) t.
Proof.
  revert t. induction n as [|n IH]; intros t Hin.
  - destruct Hin as [<- | []]. by split.
  - cbn [tapes] in Hin. apply in_app_or in Hin.
    destruct Hin as [Hin | Hin]; apply in_map_iff in Hin;
      destruct Hin as (t' & <- & Hin'); destruct (IH t' Hin') as [Hlen Hall];
      (split; [simpl; by rewrite Hlen | apply Forall_cons_2; [lia | done]]).
Qed.

Lemma tapes_length (n : nat) : Z.of_nat (length (tapes n)) = 2 ^ Z.of_nat n.
Proof.
  induction n as [|n IH]; [done|].
  cbn [tapes]. rewrite length_app, !length_map, Nat2Z.inj_add, IH.
  rewrite Nat2Z.inj_succ, Z.pow_succ_r by lia. lia.
Qed.

(** On a tape of zeros and ones, the draws below 2 are the tape. *)
Lemma tape_draws (t : list Z) :
  Forall (fun r => r = 0 \/ r = 1) t ->
  randbelow_draws (G := tape_generator) 2 (length t) t = (map Z.to_nat t, []).
Proof.
  induction 1 as [|r t Hr _ IH]; [done|].
  cbn [length randbelow_draws]. cbn [gen_randbelow tape_generator].
  cbn [tape_randbelow fst snd]. rewrite IH. cbn [fst snd map].
  by destruct Hr as [-> | ->].
Qed.

Lemma drawn_binary (z : Z) (t : list Z) :
  z = 0 \/ z = 1 ->
  Forall (fun r => r = 0 \/ r = 1) t ->
  existsb (fun l => py_eq l (SInt z))
    (map (fun k : nat => nth k [SInt 0; SInt 1] SNone) (map Z.to_nat t))
  = existsb (Z.eqb z) t.
Proof.
  intros Hz. induction 1 as [|r t Hr _ IH]; [done|].
  cbn [map existsb]. rewrite IH. f_equal.
  by destruct Hz as [-> | ->], Hr as [-> | ->].
Qed.

Lemma filter_false {A : Type} (l : list A) :
  List.filter (fun _ : A => false) l = [].
Proof. induction l; done. Qed.

(** One tape of [n] draws has no 0, and one has no 1. *)
Lemma tapes_without (z : Z) (n : nat) :
  z = 0 \/ z = 1 ->
  length (List.filter (fun t => negb (existsb (Z.eqb z) t)) (tapes n)) = 1%nat.
Proof.
  intros Hz. induction n as [|n IH]; [done|].
  cbn [tapes]. rewrite List.filter_app, length_app, !filter_map_length.
  destruct Hz as [-> | ->]; cbn [existsb Z.eqb orb negb].
  - rewrite filter_false. exact IH.
  - rewrite filter_false, IH. reflexivity.
Qed.

(** Two tapes of one or more draws lack a 0 or a 1. *)
Lemma tapes_failing (n : nat) :
  length (List.filter
            (fun t => negb (existsb (Z.eqb 0) t && existsb (Z.eqb 1) t))
            (tapes (S n))) = 2%nat.
Proof.
  cbn [tapes]. rewrite List.filter_app, length_app, !filter_map_length.
  rewrite (List.filter_ext
             (fun t => negb (existsb (Z.eqb 0) (0 :: t)
                             && existsb (Z.eqb 1) (0 :: t)))
             (fun t => negb (existsb (Z.eqb 1) t)))
    by (intros t; reflexivity).
  rewrite (List.filter_ext
             (fun t => negb (existsb (Z.eqb 0) (1 :: t)
                             && existsb (Z.eqb 1) (1 :: t)))
             (fun t => negb (existsb (Z.eqb 0) t))).
  - by rewrite !tapes_without by auto.
  - intros t. cbn [existsb]. change (0 =? 1) with false.
    change (1 =? 1) with true. cbn [orb]. by rewrite andb_true_r.
Qed.

(** On a tape of 100 zeros and ones, the script with the labels 0 and 1
    reaches its end exactly when the tape holds both. *)
Lemma main_on_tape (n0 n1 n2 n3 n4 : string) (rest : list string)
    (t : list Z) :
  In t (tapes 100) ->
  passed (main (n0 :: n1 :: n2 :: n3 :: n4 :: rest) [SInt 0; SInt 1]
            (World tape_generator ∅ t)).1
  = existsb (Z.eqb 0) t && existsb (Z.eqb 1) t.
Proof.
  intros Hin. destruct (tapes_elem _ _ Hin) as [Hlen Hall].
  rewrite main_on_names by done.
  pose proof (tape_draws t Hall) as Hd. rewrite Hlen in Hd.
  cbn [length rng]. rewrite Hd. cbn [fst].
  rewrite !drawn_binary by auto.
  by destruct (existsb _ t), (existsb _ t).
Qed.

(** X13: with five names and the labels 0 and 1, exactly 2 of the [2^100]
    equally likely sequences of draws that the loop of [main()] can consume
    make the script fail: the final assertions fail 2 times in [2^100], not
    once. *)
Theorem main_fails_on_two_tapes (names : list string) :
  (5 <= length names)%nat ->
  length (List.filter
            (fun t => negb (passed (main names [SInt 0; SInt 1]
                                      (World tape_generator ∅ t)).1))
            (tapes 100)) = 2%nat
  /\ Z.of_nat (length (tapes 100)) = 2 ^ 100.
Proof.
  intros Hlen. split; [|exact (tapes_length 100)].
  destruct names as [|n0 [|n1 [|n2 [|n3 [|n4 rest]]]]];
    try (simpl in Hlen; lia).
  rewrite (List.filter_ext_in _
             (fun t => negb (existsb (Z.eqb 0) t && existsb (Z.eqb 1) t))).
  - exact (tapes_failing 99).
  - intros t Hin. by rewrite main_on_tape.
Qed.

Lemma main_fails_on_two_tapes_witness :
  length (List.filter
            (fun t => negb (passed (main ["a"; "b"; "c"; "d"; "e"]
                                      [SInt 0; SInt 1]
                                      (World tape_generator ∅ t)).1))
            (tapes 100)) = 2%nat
  /\ Z.of_nat (length (tapes 100)) = 2 ^ 100.
Proof.
  apply (main_fails_on_two_tapes ["a"; "b"; "c"; "d"; "e"]).
  simpl. lia.
Defined.
